(** * python-shell: the process-communication layer of [src/index.ts]

    A shallow embedding of the [PythonShell] class: the line framer
    ([recieveInternal]), the error parser ([parseError]), the outbound codec
    ([PythonShell.format.text], [send]) and the lifecycle controller
    ([terminateIfNeeded], [terminate], [end]).

    Conventions of the embedding.
    - JavaScript strings are [string]s of 8-bit characters (ASCII text).
    - JavaScript numbers are restricted to integers and written as [Z].
    - The session object [self] is an explicit record [PythonShell]; the
      closure variable [errorData] of the constructor and the number of
      'error' listeners held by the inherited EventEmitter are fields of it.
    - Every method is a computation in a small state-and-exception monad that
      also logs the observable effects (events emitted, callbacks invoked,
      writes to the child's stdin, signals sent).
    - What Node.js supplies from outside the file ([os.EOL], [path.join], the
      stack captured by [new Error], [JSON]) is gathered in a [Host] record.
    - Codec functions, listeners and completion callbacks are taken to return
      normally and not to call back into the session.
    - A run of the session is a list of turns of the event loop: notifications
      from the child process and calls made by the owner, in arrival order. *)

From Stdlib Require Import String Ascii List ZArith Bool Lia Arith.
From Stdlib Require Import DecimalString Permutation.
Import ListNotations.
Local Open Scope list_scope.
Local Open Scope string_scope.

(* ================================================================= *)
(** ** JavaScript values *)

(** A field that may be absent ([undefined]), [null], or hold a value. *)
Inductive nullable (A : Type) : Type :=
| Undefined : nullable A
| Null : nullable A
| Val : A -> nullable A.
Arguments Undefined {A}.
Arguments Null {A}.
Arguments Val {A} _.

(** [x == null] *)
Definition is_nullish {A} (x : nullable A) : bool :=
  match x with
  | Val _ => false
  | _ => true
  end.

(** What Node hands to an 'exit' listener: a value or [null]. *)
Definition of_option {A} (o : option A) : nullable A :=
  match o with
  | Some a => Val a
  | None => Null
  end.

(** The values a caller may hand to [send].  An object is represented by the
    text its [toString()] method returns. *)
Inductive jsval : Type :=
| VUndefined
| VNull
| VBool (b : bool)
| VNum (n : Z)
| VStr (s : string)
| VObj (repr : string).

(** Decimal text of an integer number, as [Number.prototype.toString]. *)
Definition string_of_Z (n : Z) : string := NilZero.string_of_int (Z.to_int n).

(** ToBoolean: the test performed by [if (x)], [!x], [x && y], [x || y]. *)
Definition truthy (v : jsval) : bool :=
  match v with
  | VUndefined | VNull => false
  | VBool b => b
  | VNum n => negb (n =? 0)%Z
  | VStr s => negb (String.eqb s EmptyString)
  | VObj _ => true
  end.

(** ToString: the text [''+v] evaluates to; on booleans, numbers and objects
    it is also what [v.toString()] returns.  This is the value's string
    representation. *)
Definition js_to_string (v : jsval) : string :=
  match v with
  | VUndefined => "undefined"
  | VNull => "null"
  | VBool true => "true"
  | VBool false => "false"
  | VNum n => string_of_Z n
  | VStr s => s
  | VObj repr => repr
  end.

Definition is_string (v : jsval) : bool :=
  match v with
  | VStr _ => true
  | _ => false
  end.

(* ================================================================= *)
(** ** Text primitives: [split], [join], [trim], [pop] *)

Definition LF : ascii := ascii_of_nat 10.
Definition CR : ascii := ascii_of_nat 13.

(** [s.split(new RegExp(sep, 'g'))] for a literal, non-empty [sep]: the text
    is scanned left to right, every occurrence of [sep] closes a piece and the
    scan resumes after it.  [skip] counts the characters of a separator that
    are still to be passed over.  The result is never empty. *)
Fixpoint split_from (sep : string) (skip : nat) (s : string) : list string :=
  match s with
  | EmptyString => [EmptyString]
  | String c rest =>
      match skip with
      | S k => split_from sep k rest
      | O =>
          if prefix sep s
          then EmptyString :: split_from sep (String.length sep - 1) rest
          else match split_from sep 0 rest with
               | piece :: more => String c piece :: more
               | [] => [String c EmptyString]
               end
      end
  end.

Definition split (sep s : string) : list string := split_from sep 0 s.

(** [parts.join(sep)] *)
Definition join (sep : string) (parts : list string) : string :=
  String.concat sep parts.

(** White space stripped by [String.prototype.trim], ASCII range. *)
Definition is_white (c : ascii) : bool :=
  let n := nat_of_ascii c in
  ((9 <=? n)%nat && (n <=? 13)%nat) || (n =? 32)%nat.

Fixpoint trim_start (s : string) : string :=
  match s with
  | EmptyString => EmptyString
  | String c rest => if is_white c then trim_start rest else s
  end.

Fixpoint trim_end (s : string) : string :=
  match s with
  | EmptyString => EmptyString
  | String c rest =>
      match trim_end rest with
      | EmptyString => if is_white c then EmptyString else String c EmptyString
      | kept => String c kept
      end
  end.

Definition trim (s : string) : string := trim_end (trim_start s).

(* ================================================================= *)
(** ** The Node.js host *)

Inductive Platform : Type := posix | win32.

(** [os.EOL]: a line feed on POSIX, carriage return + line feed on Windows. *)
Definition EOL (p : Platform) : string :=
  match p with
  | posix => String LF EmptyString
  | win32 => String CR (String LF EmptyString)
  end.

Module PythonShellError.

(** [class PythonShellError extends Error] together with the properties that
    [terminateIfNeeded] adds through [extend]. *)
Record t : Type := mk {
  message : string;
  stack : string;
  traceback : nullable string;
  executable : nullable string;
  options : nullable (list string);
  script : nullable string;
  args : nullable (list string);
  exitCode : nullable Z
}.

End PythonShellError.

Inductive exn : Type :=
| Unhandled_error (err : PythonShellError.t)
| TypeError_not_a_function.

Record Host : Type := {
  platform : Platform;
  (** [path.join] *)
  path_join : string -> string -> string;
  (** the [stack] property a fresh [Error] with this message is given *)
  captured_stack : string -> string;
  JSON_stringify : jsval -> jsval;
  JSON_parse : string -> jsval
}.

(** [import {EOL as newline} from 'os'] *)
Definition newline (h : Host) : string := EOL (platform h).

(** [static defaultPythonPath] *)
Definition defaultPythonPath (h : Host) : string :=
  match platform h with
  | win32 => "python"
  | posix => "python3"
  end.

(** [new PythonShellError(msg)] *)
Definition new_PythonShellError (h : Host) (msg : string) : PythonShellError.t :=
  PythonShellError.mk msg (captured_stack h msg)
    Undefined Undefined Undefined Undefined Undefined Undefined.

(* ================================================================= *)
(** ** Error parser: [parseError] *)

Definition traceback_header (h : Host) : string :=
  newline h ++ "    ----- Python Traceback -----" ++ newline h ++ "  ".

Definition parseError (h : Host) (data : string) : PythonShellError.t :=
  let text := data in
  if prefix "Traceback" text then
    (* traceback data is available *)
    let lines := split (newline h) (trim data) in
    let exception := last lines EmptyString in   (* lines.pop() *)
    let lines := removelast lines in
    let error := new_PythonShellError h exception in
    PythonShellError.mk
      (PythonShellError.message error)
      (PythonShellError.stack error
         ++ traceback_header h
         ++ join (newline h ++ "  ") (tl lines))   (* lines.slice(1).join *)
      (Val data)
      Undefined Undefined Undefined Undefined Undefined
  else
    (* otherwise, create a simpler error with stderr contents *)
    new_PythonShellError h text.

(* ================================================================= *)
(** ** Built-in codecs: [PythonShell.format], [PythonShell.parse] *)

(** [format.text] *)
Definition toText (data : jsval) : string :=
  if negb (truthy data) then EmptyString
  else match data with
       | VStr s => s                   (* return data *)
       | _ => js_to_string data        (* data.toString() *)
       end.

(** [parse.text] *)
Definition asText (data : string) : jsval := VStr data.

(** [PythonShell.format[name]] *)
Definition format_table (h : Host) (name : string) : option (jsval -> jsval) :=
  if String.eqb name "text" then Some (fun d => VStr (toText d))
  else if String.eqb name "json" then Some (JSON_stringify h)
  else None.

(** [PythonShell.parse[name]] *)
Definition parse_table (h : Host) (name : string) : option (string -> jsval) :=
  if String.eqb name "text" then Some asText
  else if String.eqb name "json" then Some (JSON_parse h)
  else None.

(* ================================================================= *)
(** ** The session object *)

(** A completion callback handed to [end]; the number names the function. *)
Definition callback : Type := nat.

Record PythonShell : Type := mkPythonShell {
  scriptPath : string;
  command : list string;
  mode : string;
  formatter : option (jsval -> jsval);
  parser : option (string -> jsval);
  stderrParser : option (string -> jsval);
  terminated : bool;
  exitSignal : nullable string;
  exitCode : nullable Z;
  stderrHasEnded : bool;
  stdoutHasEnded : bool;
  _remaining : nullable string;
  _endCallback : option callback;
  (* variables of the constructor's closure *)
  errorData : string;
  pythonPath : string;
  pythonOptions : list string;
  scriptArgs : list string;
  (* [self.listeners('error').length] *)
  error_listeners : nat
}.

Definition set_terminated (v : bool) (s : PythonShell) : PythonShell :=
  mkPythonShell (scriptPath s) (command s) (mode s) (formatter s) (parser s)
    (stderrParser s) v (exitSignal s) (exitCode s) (stderrHasEnded s)
    (stdoutHasEnded s) (_remaining s) (_endCallback s) (errorData s)
    (pythonPath s) (pythonOptions s) (scriptArgs s) (error_listeners s).

Definition set_exitSignal (v : nullable string) (s : PythonShell) : PythonShell :=
  mkPythonShell (scriptPath s) (command s) (mode s) (formatter s) (parser s)
    (stderrParser s) (terminated s) v (exitCode s) (stderrHasEnded s)
    (stdoutHasEnded s) (_remaining s) (_endCallback s) (errorData s)
    (pythonPath s) (pythonOptions s) (scriptArgs s) (error_listeners s).

Definition set_exitCode (v : nullable Z) (s : PythonShell) : PythonShell :=
  mkPythonShell (scriptPath s) (command s) (mode s) (formatter s) (parser s)
    (stderrParser s) (terminated s) (exitSignal s) v (stderrHasEnded s)
    (stdoutHasEnded s) (_remaining s) (_endCallback s) (errorData s)
    (pythonPath s) (pythonOptions s) (scriptArgs s) (error_listeners s).

Definition set_stderrHasEnded (v : bool) (s : PythonShell) : PythonShell :=
  mkPythonShell (scriptPath s) (command s) (mode s) (formatter s) (parser s)
    (stderrParser s) (terminated s) (exitSignal s) (exitCode s) v
    (stdoutHasEnded s) (_remaining s) (_endCallback s) (errorData s)
    (pythonPath s) (pythonOptions s) (scriptArgs s) (error_listeners s).

Definition set_stdoutHasEnded (v : bool) (s : PythonShell) : PythonShell :=
  mkPythonShell (scriptPath s) (command s) (mode s) (formatter s) (parser s)
    (stderrParser s) (terminated s) (exitSignal s) (exitCode s)
    (stderrHasEnded s) v (_remaining s) (_endCallback s) (errorData s)
    (pythonPath s) (pythonOptions s) (scriptArgs s) (error_listeners s).

Definition set_remaining (v : nullable string) (s : PythonShell) : PythonShell :=
  mkPythonShell (scriptPath s) (command s) (mode s) (formatter s) (parser s)
    (stderrParser s) (terminated s) (exitSignal s) (exitCode s)
    (stderrHasEnded s) (stdoutHasEnded s) v (_endCallback s) (errorData s)
    (pythonPath s) (pythonOptions s) (scriptArgs s) (error_listeners s).

Definition set_endCallback (v : option callback) (s : PythonShell) : PythonShell :=
  mkPythonShell (scriptPath s) (command s) (mode s) (formatter s) (parser s)
    (stderrParser s) (terminated s) (exitSignal s) (exitCode s)
    (stderrHasEnded s) (stdoutHasEnded s) (_remaining s) v (errorData s)
    (pythonPath s) (pythonOptions s) (scriptArgs s) (error_listeners s).

Definition set_errorData (v : string) (s : PythonShell) : PythonShell :=
  mkPythonShell (scriptPath s) (command s) (mode s) (formatter s) (parser s)
    (stderrParser s) (terminated s) (exitSignal s) (exitCode s)
    (stderrHasEnded s) (stdoutHasEnded s) (_remaining s) (_endCallback s) v
    (pythonPath s) (pythonOptions s) (scriptArgs s) (error_listeners s).

Definition set_error_listeners (v : nat) (s : PythonShell) : PythonShell :=
  mkPythonShell (scriptPath s) (command s) (mode s) (formatter s) (parser s)
    (stderrParser s) (terminated s) (exitSignal s) (exitCode s)
    (stderrHasEnded s) (stdoutHasEnded s) (_remaining s) (_endCallback s)
    (errorData s) (pythonPath s) (pythonOptions s) (scriptArgs s) v.

(* ================================================================= *)
(** ** Effects and the method monad *)

(** What a method does to the outside world, in the order it does it. *)
Inductive effect : Type :=
| Emit_message (v : jsval)                (* self.emit('message', v) *)
| Emit_stderr (v : jsval)                 (* self.emit('stderr', v) *)
| Emit_error (err : PythonShellError.t)   (* self.emit('error', err) *)
| Emit_close                              (* self.emit('close') *)
| Call_endCallback (cb : callback) (err : option PythonShellError.t)
    (code : nullable Z) (signal : nullable string)
| Stdin_write (data : jsval)              (* stdin.write(data) *)
| Stdin_end                               (* childProcess.stdin.end() *)
| Kill (signal : option string)           (* childProcess.kill(signal) *)
| Uncaught (e : exn).                     (* an exception left a handler *)

Inductive outcome (A : Type) : Type :=
| Returned (a : A)
| Thrown (e : exn).
Arguments Returned {A} _.
Arguments Thrown {A} _.

Definition M (A : Type) : Type :=
  PythonShell -> outcome A * PythonShell * list effect.

Definition ret {A} (a : A) : M A := fun s => (Returned a, s, []).

Definition bind {A B} (m : M A) (k : A -> M B) : M B := fun s =>
  match m s with
  | (Returned a, s1, l1) =>
      match k a s1 with
      | (r, s2, l2) => (r, s2, (l1 ++ l2)%list)
      end
  | (Thrown e, s1, l1) => (Thrown e, s1, l1)
  end.

Definition this : M PythonShell := fun s => (Returned s, s, []).
Definition modify (f : PythonShell -> PythonShell) : M unit :=
  fun s => (Returned tt, f s, []).
Definition perform (e : effect) : M unit := fun s => (Returned tt, s, [e]).
Definition throw {A} (e : exn) : M A := fun s => (Thrown e, s, []).

Notation "x <- m ;; k" := (bind m (fun x => k))
  (at level 61, m at next level, right associativity).
Notation "m ;; k" := (bind m (fun _ => k))
  (at level 61, right associativity).

(** [parts.forEach(f)] *)
Fixpoint forEach {A} (parts : list A) (f : A -> M unit) : M unit :=
  match parts with
  | [] => ret tt
  | part :: more => f part ;; forEach more f
  end.

(** [self.emit('error', err)], the method inherited from Node's EventEmitter.
    An emitter that has no listener registered for 'error' does not drop the
    event: [emit] throws the error it was given, and the exception leaves the
    function that called [emit]. *)
Definition emit_error (err : PythonShellError.t) : M unit :=
  self <- this ;;
  perform (Emit_error err) ;;
  if (error_listeners self =? 0)%nat then throw (Unhandled_error err) else ret tt.

(** [x || ''] on the framing buffer *)
Definition or_empty (x : nullable string) : string :=
  match x with
  | Val s => s
  | _ => EmptyString
  end.

(** [self.exitCode && self.exitCode !== 0] *)
Definition nonzero_code (x : nullable Z) : bool :=
  match x with
  | Val n => negb (n =? 0)%Z
  | _ => false
  end.

(** [xs.length ? xs : null] *)
Definition or_null {A} (xs : list A) : nullable (list A) :=
  match xs with
  | [] => Null
  | _ => Val xs
  end.

(* ================================================================= *)
(** ** Lifecycle controller *)

(** [extend(err, {executable, options, script, args, exitCode})] *)
Definition extend_error (err : PythonShellError.t) (self : PythonShell)
  : PythonShellError.t :=
  PythonShellError.mk
    (PythonShellError.message err)
    (PythonShellError.stack err)
    (PythonShellError.traceback err)
    (Val (pythonPath self))
    (or_null (pythonOptions self))
    (Val (scriptPath self))
    (or_null (scriptArgs self))
    (exitCode self).

(** [''+code] for a recorded exit code *)
Definition text_of_code (code : nullable Z) : string :=
  match code with
  | Val n => string_of_Z n
  | Null => "null"
  | Undefined => "undefined"
  end.

Definition terminateIfNeeded (h : Host) : M unit :=
  self <- this ;;
  if negb (stderrHasEnded self) || negb (stdoutHasEnded self)
     || (is_nullish (exitCode self) && is_nullish (exitSignal self))
  then ret tt
  else
    err <- (if nonzero_code (exitCode self) then
              let err :=
                if negb (String.eqb (errorData self) EmptyString)
                then parseError h (errorData self)
                else new_PythonShellError h
                       ("process exited with code " ++ text_of_code (exitCode self)) in
              let err := extend_error err self in
              (* do not emit error if only a callback is used *)
              (if negb (error_listeners self =? 0)%nat
                  || match _endCallback self with None => true | Some _ => false end
               then emit_error err
               else ret tt) ;;
              ret (Some err)
            else ret None) ;;
    modify (set_terminated true) ;;
    perform Emit_close ;;
    match _endCallback self with
    | Some cb => perform (Call_endCallback cb err (exitCode self) (exitSignal self))
    | None => ret tt
    end.

(* ================================================================= *)
(** ** Send and receive *)

Definition send (h : Host) (message : jsval) : M unit :=
  self <- this ;;
  let data := match formatter self with
              | Some f => f message
              | None => message
              end in
  let data := if negb (String.eqb (mode self) "binary")
              then VStr (js_to_string data ++ newline h)   (* data += newline *)
              else data in
  perform (Stdin_write data).

Inductive EmitType : Type := on_message | on_stderr.

(** [self.parser(part)] / [self.stderrParser(part)]: calling a codec that was
    not resolved is a TypeError. *)
Definition call_codec (codec : option (string -> jsval)) (part : string) : M jsval :=
  match codec with
  | Some f => ret (f part)
  | None => throw TypeError_not_a_function
  end.

Definition recieveInternal (h : Host) (data : string) (emitType : EmitType) : M unit :=
  self <- this ;;
  let parts := split (newline h) data in
  if (List.length parts =? 1)%nat then
    (* an incomplete record, keep buffering *)
    modify (set_remaining (Val (or_empty (_remaining self) ++ hd EmptyString parts)))
  else
    let lastLine := last parts EmptyString in                 (* parts.pop() *)
    let parts := removelast parts in
    (* fix the first line with the remaining from the previous iteration *)
    let parts := (or_empty (_remaining self) ++ hd EmptyString parts) :: tl parts in
    (* keep the remaining for the next iteration of 'receive' *)
    modify (set_remaining (Val lastLine)) ;;
    forEach parts (fun part =>
      match emitType with
      | on_message => v <- call_codec (parser self) part ;; perform (Emit_message v)
      | on_stderr => v <- call_codec (stderrParser self) part ;; perform (Emit_stderr v)
      end).

Definition receive (h : Host) (data : string) : M unit :=
  recieveInternal h data on_message.

Definition receiveStderr (h : Host) (data : string) : M unit :=
  recieveInternal h data on_stderr.

(* ================================================================= *)
(** ** Termination operations *)

(** [end(callback)] *)
Definition end_ (cb : callback) : M unit :=
  perform Stdin_end ;;
  modify (set_endCallback (Some cb)).

Definition terminate (signal : option string) : M unit :=
  perform (Kill signal) ;;
  modify (set_terminated true).

(* ================================================================= *)
(** ** Construction *)

(** A codec option: the name of a built-in or a function of the caller. *)
Inductive resolvable (F : Type) : Type :=
| By_name (name : string)
| By_function (f : F).
Arguments By_name {F} _.
Arguments By_function {F} _.

Record Options : Type := {
  opt_mode : option string;
  opt_formatter : option (resolvable (jsval -> jsval));
  opt_parser : option (resolvable (string -> jsval));
  opt_stderrParser : option (resolvable (string -> jsval));
  opt_pythonPath : option string;
  opt_pythonOptions : option (list string);
  opt_scriptFolder : option string;
  opt_args : option (list string)
}.

(** [static defaultOptions:Options = {}] *)
Definition defaultOptions : Options :=
  Build_Options None None None None None None None None.

Definition toArray {A} (source : option (list A)) : list A :=
  match source with
  | None => []
  | Some xs => xs
  end.

Definition override {A} (base over : option A) : option A :=
  match over with
  | Some _ => over
  | None => base
  end.

(** [extend({}, PythonShell.defaultOptions, options)] *)
Definition extend_options (defaults options : Options) : Options :=
  Build_Options
    (override (opt_mode defaults) (opt_mode options))
    (override (opt_formatter defaults) (opt_formatter options))
    (override (opt_parser defaults) (opt_parser options))
    (override (opt_stderrParser defaults) (opt_stderrParser options))
    (override (opt_pythonPath defaults) (opt_pythonPath options))
    (override (opt_pythonOptions defaults) (opt_pythonOptions options))
    (override (opt_scriptFolder defaults) (opt_scriptFolder options))
    (override (opt_args defaults) (opt_args options)).

(** [s || d] on an optional string: absent and empty are both falsy. *)
Definition string_or (s : option string) (d : string) : string :=
  match s with
  | Some v => if String.eqb v EmptyString then d else v
  | None => d
  end.

(** [resolve(type, val)], with [table] standing for [PythonShell[type]]. *)
Definition resolve {F} (table : string -> option F) (val : resolvable F) : option F :=
  match val with
  | By_name name => table name
  | By_function f => Some f
  end.

(** [options.formatter || this.mode] *)
Definition codec_or_mode {F} (o : option (resolvable F)) (mode : string) : resolvable F :=
  match o with
  | None => By_name mode
  | Some (By_name name) => if String.eqb name EmptyString then By_name mode else By_name name
  | Some (By_function f) => By_function f
  end.

(** [new PythonShell(scriptPath, options)]: the session right after the
    constructor returned, with the child spawned and the listeners on its
    streams installed. *)
Definition new_PythonShell (h : Host) (defaults : Options) (scriptPath : string)
  (options : Options) : PythonShell :=
  let options := extend_options defaults options in
  let pythonPath := string_or (opt_pythonPath options) (defaultPythonPath h) in
  let pythonOptions := toArray (opt_pythonOptions options) in
  let scriptArgs := toArray (opt_args options) in
  let scriptPath := path_join h (string_or (opt_scriptFolder options) EmptyString) scriptPath in
  let mode := string_or (opt_mode options) "text" in
  mkPythonShell
    scriptPath
    (pythonOptions ++ scriptPath :: scriptArgs)%list
    mode
    (resolve (format_table h) (codec_or_mode (opt_formatter options) mode))
    (resolve (parse_table h) (codec_or_mode (opt_parser options) mode))
    (resolve (parse_table h) (codec_or_mode (opt_stderrParser options) mode))
    false Undefined Undefined false false Undefined None
    EmptyString pythonPath pythonOptions scriptArgs 0.

(* ================================================================= *)
(** ** The listeners installed by the constructor, and the event loop *)

(** [this.stdout.on('data', this.receive.bind(this))], installed only when a
    parser was resolved. *)
Definition on_stdout_data (h : Host) (data : string) : M unit :=
  self <- this ;;
  match parser self with
  | Some _ => receive h data
  | None => ret tt
  end.

Definition on_stderr_data (h : Host) (data : string) : M unit :=
  modify (fun self => set_errorData (errorData self ++ data) self) ;;
  receiveStderr h data.

Definition on_stderr_end (h : Host) : M unit :=
  modify (set_stderrHasEnded true) ;;
  terminateIfNeeded h.

Definition on_stdout_end (h : Host) : M unit :=
  modify (set_stdoutHasEnded true) ;;
  terminateIfNeeded h.

Definition on_exit (h : Host) (code : option Z) (signal : option string) : M unit :=
  modify (set_exitCode (of_option code)) ;;
  modify (set_exitSignal (of_option signal)) ;;
  terminateIfNeeded h.

(** One turn of the event loop: a notification from the child, or a call made
    by the owner of the session. *)
Inductive input : Type :=
| Stdout_data (chunk : string)
| Stderr_data (chunk : string)
| Stdout_end
| Stderr_end
| Exit (code : option Z) (signal : option string)
| Do_send (message : jsval)
| Do_end (cb : callback)
| Do_terminate (signal : option string)
| Do_on_error.                       (* pyshell.on('error', listener) *)

Definition dispatch (h : Host) (i : input) : M unit :=
  match i with
  | Stdout_data chunk => on_stdout_data h chunk
  | Stderr_data chunk => on_stderr_data h chunk
  | Stdout_end => on_stdout_end h
  | Stderr_end => on_stderr_end h
  | Exit code signal => on_exit h code signal
  | Do_send message => send h message
  | Do_end cb => end_ cb
  | Do_terminate signal => terminate signal
  | Do_on_error => modify (fun self => set_error_listeners (S (error_listeners self)) self)
  end.

(** The effects of one turn; an exception that leaves the handler is logged
    and the loop goes on with the state the handler left behind. *)
Definition turn (h : Host) (i : input) (self : PythonShell) : PythonShell * list effect :=
  match dispatch h i self with
  | (Returned _, self1, l) => (self1, l)
  | (Thrown e, self1, l) => (self1, (l ++ [Uncaught e])%list)
  end.

Fixpoint run (h : Host) (trace : list input) (self : PythonShell)
  : PythonShell * list effect :=
  match trace with
  | [] => (self, [])
  | i :: rest =>
      match turn h i self with
      | (self1, l1) =>
          match run h rest self1 with
          | (self2, l2) => (self2, (l1 ++ l2)%list)
          end
      end
  end.

(** Observations on a log. *)
Definition is_close (e : effect) : bool :=
  match e with
  | Emit_close => true
  | _ => false
  end.

Definition is_endCallback (e : effect) : bool :=
  match e with
  | Call_endCallback _ _ _ _ => true
  | _ => false
  end.

Definition is_unhandled_error (e : effect) : bool :=
  match e with
  | Uncaught (Unhandled_error _) => true
  | _ => false
  end.

Definition count (p : effect -> bool) (log : list effect) : nat :=
  List.length (filter p log).

Definition is_stdout_end (i : input) : bool :=
  match i with Stdout_end => true | _ => false end.
Definition is_stderr_end (i : input) : bool :=
  match i with Stderr_end => true | _ => false end.
Definition is_exit (i : input) : bool :=
  match i with Exit _ _ => true | _ => false end.

Definition occurrences (p : input -> bool) (trace : list input) : nat :=
  List.length (filter p trace).

(** The completion facts of the lifecycle, read off the session. *)
Definition has_value {A} (x : nullable A) : bool :=
  match x with
  | Val _ => true
  | _ => false
  end.

(** An exit code or an exit signal has been recorded. *)
Definition exited (self : PythonShell) : bool :=
  has_value (exitCode self) || has_value (exitSignal self).

(** All three completion facts hold. *)
Definition converged (self : PythonShell) : bool :=
  stdoutHasEnded self && stderrHasEnded self && exited self.

(** No completion fact holds yet. *)
Definition fresh (self : PythonShell) : bool :=
  negb (stdoutHasEnded self) && negb (stderrHasEnded self) && negb (exited self).

(* ================================================================= *)
(** ** Sample sessions *)

Definition sample_join (dir file : string) : string :=
  if String.eqb dir EmptyString then file else dir ++ "/" ++ file.

Definition sample_host (p : Platform) : Host :=
  Build_Host p sample_join (fun msg => "Error: " ++ msg) (fun v => v) VStr.

(** [new PythonShell('script.py')] *)
Definition sample_shell (p : Platform) : PythonShell :=
  new_PythonShell (sample_host p) defaultOptions "script.py" defaultOptions.

Definition lines_of (p : Platform) (ls : list string) : string :=
  join EmptyString (map (fun l => l ++ EOL p) ls).

Definition sample_traceback : string :=
  lines_of posix
    ["Traceback (most recent call last):";
     "  File x.py, line 1";
     "ValueError: bad"].

(* ================================================================= *)
(** ** Vocabulary for the statements *)

(** The records one call of the framer surfaces, and the fragment it keeps,
    for a buffered fragment [buf] and a chunk [data]: the pieces of the chunk
    with [buf] put in front of the first one; all but the last are records,
    the last is the new fragment. *)
Definition framed (sep buf data : string) : list string :=
  match split sep data with
  | first :: more => (buf ++ first) :: more
  | [] => [buf]
  end.

Definition codec_of (emitType : EmitType) (self : PythonShell)
  : option (string -> jsval) :=
  match emitType with
  | on_message => parser self
  | on_stderr => stderrParser self
  end.

Definition event_of (emitType : EmitType) (v : jsval) : effect :=
  match emitType with
  | on_message => Emit_message v
  | on_stderr => Emit_stderr v
  end.

(** The error [terminateIfNeeded] builds for a non-zero exit, before the
    session's properties are attached to it. *)
Definition exit_error (h : Host) (self : PythonShell) : PythonShellError.t :=
  if negb (String.eqb (errorData self) EmptyString)
  then parseError h (errorData self)
  else new_PythonShellError h
         ("process exited with code " ++ text_of_code (exitCode self)).

(** What the completion callback is called with, if there is one. *)
Definition callback_log (self : PythonShell) (err : option PythonShellError.t)
  : list effect :=
  match _endCallback self with
  | Some cb => [Call_endCallback cb err (exitCode self) (exitSignal self)]
  | None => []
  end.

(** The assignment a completion listener makes before it calls
    [terminateIfNeeded]. *)
Definition record_signal (i : input) (self : PythonShell) : PythonShell :=
  match i with
  | Stdout_end => set_stdoutHasEnded true self
  | Stderr_end => set_stderrHasEnded true self
  | Exit code signal =>
      set_exitSignal (of_option signal) (set_exitCode (of_option code) self)
  | _ => self
  end.

Definition is_signal (i : input) : bool :=
  is_stdout_end i || is_stderr_end i || is_exit i.

(** Node reports an exit with a code or with a signal. *)
Definition reported (i : input) : bool :=
  match i with
  | Exit None None => false
  | _ => true
  end.

(** The non-zero exit nobody listens for: no 'error' listener and no
    completion callback. *)
Definition unheard_failure (self : PythonShell) : bool :=
  nonzero_code (exitCode self)
  && (error_listeners self =? 0)%nat
  && match _endCallback self with None => true | Some _ => false end.

(** The terminal transition as one turn of the event loop sees it. *)
Definition transition (h : Host) (self : PythonShell) : PythonShell * list effect :=
  if nonzero_code (exitCode self) then
    let err := extend_error (exit_error h self) self in
    match error_listeners self, _endCallback self with
    | O, None => (self, [Emit_error err; Uncaught (Unhandled_error err)])
    | O, Some _ =>
        (set_terminated true self, Emit_close :: callback_log self (Some err))
    | S _, _ =>
        (set_terminated true self,
         Emit_error err :: Emit_close :: callback_log self (Some err))
    end
  else (set_terminated true self, Emit_close :: callback_log self None).

(** The completion facts recorded in a session. *)
Definition facts (self : PythonShell)
  : bool * bool * nullable Z * nullable string :=
  (stdoutHasEnded self, stderrHasEnded self, exitCode self, exitSignal self).

(** Every completion signal that the session has not recorded yet is still
    to come, exactly once, and none is repeated. *)
Definition pending (self : PythonShell) (trace : list input) : Prop :=
  occurrences is_stdout_end trace = (if stdoutHasEnded self then 0 else 1) /\
  occurrences is_stderr_end trace = (if stderrHasEnded self then 0 else 1) /\
  occurrences is_exit trace = (if exited self then 0 else 1) /\
  forallb reported trace = true.

(** Some completion fact is missing and its signal is not in the trace. *)
Definition missing (self : PythonShell) (trace : list input) : Prop :=
  (stdoutHasEnded self = false /\ occurrences is_stdout_end trace = 0) \/
  (stderrHasEnded self = false /\ occurrences is_stderr_end trace = 0) \/
  (exited self = false /\ occurrences is_exit trace = 0).

(** The lifecycle effects of a log: nothing of the terminal transition. *)
Definition no_transition (log : list effect) : Prop :=
  count is_close log = 0 /\
  count is_unhandled_error log = 0 /\
  count is_endCallback log = 0.

(** The terminal transition was taken once: it fired 'close' or it raised
    the unheard error, and the callback was called at most with the close. *)
Definition one_transition (log : list effect) : Prop :=
  count is_close log + count is_unhandled_error log = 1 /\
  count is_endCallback log <= count is_close log.

Ltac in_log :=
  repeat match goal with
    | H : _ /\ _ |- _ => destruct H
    | H : _ \/ _ |- _ => destruct H
    | H : False |- _ => destruct H
    | H : @eq effect _ _ |- _ =>
        first [ discriminate H | injection H as ? ? ? ? | injection H as ? ]
    | H : @eq (option _) _ _ |- _ => first [ discriminate H | injection H as ? ]
    end;
  subst; try congruence; auto.

Ltac open_session self :=
  destruct self as [sp cmd md fmt prs eprs tm xsig xcode eend oend rem cb ed pp po sa n].

(** A session whose streams have ended after a traceback was written to
    stderr, with a completion callback registered and exit code 1 recorded. *)
Definition sample_failed : PythonShell :=
  record_signal (Exit (Some 1%Z) None)
    (fst (run (sample_host posix)
            [Do_end 7; Stderr_data sample_traceback; Stdout_end; Stderr_end]
            (sample_shell posix))).

(** A session whose streams have ended after some stderr output, with a
    completion callback registered and a kill by SIGTERM recorded. *)
Definition sample_killed : PythonShell :=
  record_signal (Exit None (Some "SIGTERM"))
    (fst (run (sample_host posix)
            [Do_end 7; Stderr_data "boom"; Stdout_end; Stderr_end]
            (sample_shell posix))).

(** The 'data' notification of the stream that feeds [emitType]. *)
Definition data_input (emitType : EmitType) (chunk : string) : input :=
  match emitType with
  | on_message => Stdout_data chunk
  | on_stderr => Stderr_data chunk
  end.

(** A text free of line feeds. *)
Fixpoint lf_free (s : string) : bool :=
  match s with
  | EmptyString => true
  | String c rest => if ascii_dec LF c then false else lf_free rest
  end.

(** The framing buffer holds no complete record: splitting it on the line
    terminator yields the buffer itself as the only piece. *)
Definition holds_no_record (h : Host) (self : PythonShell) : Prop :=
  split (newline h) (or_empty (_remaining self)) = [or_empty (_remaining self)].

(* ================================================================= *)
(** ** Further vocabulary *)

(** The last character of a text, if it has one. *)
Fixpoint last_char (s : string) : option ascii :=
  match s with
  | EmptyString => None
  | String c rest =>
      match last_char rest with
      | Some d => Some d
      | None => Some c
      end
  end.

Definition is_data (i : input) : bool :=
  match i with
  | Stdout_data _ | Stderr_data _ => true
  | _ => false
  end.

Definition is_terminate (i : input) : bool :=
  match i with
  | Do_terminate _ => true
  | _ => false
  end.

(** What a session is configured with at construction. *)
Definition config (self : PythonShell) :=
  (scriptPath self, command self, mode self, formatter self, parser self,
   stderrParser self, pythonPath self, pythonOptions self, scriptArgs self).

(** The field a turn assigns besides the framing buffer and [terminated]:
    the completion fact of a signal, the stderr text of a stderr chunk, the
    callback of [end], the listener count of [on('error')]. *)
Definition assigned (i : input) (self : PythonShell) : PythonShell :=
  match i with
  | Stderr_data chunk => set_errorData (errorData self ++ chunk) self
  | Do_end cb => set_endCallback (Some cb) self
  | Do_on_error => set_error_listeners (S (error_listeners self)) self
  | _ => record_signal i self
  end.

(** Optionally replace the framing buffer, optionally set [terminated]. *)
Definition touch (t : bool) (r : option string) (self : PythonShell) : PythonShell :=
  let self1 := match r with
               | Some fragment => set_remaining (Val fragment) self
               | None => self
               end in
  if t then set_terminated true self1 else self1.

(** The text of a published record, when its decoded value is a string. *)
Definition record_text (e : effect) : list string :=
  match e with
  | Emit_message (VStr s) | Emit_stderr (VStr s) => [s]
  | _ => []
  end.

(** The records a log publishes on 'message' and 'stderr', in order. *)
Definition records (log : list effect) : list string :=
  flat_map record_text log.

(** The text the child wrote, both streams together, in arrival order. *)
Definition received (trace : list input) : string :=
  join EmptyString
    (flat_map (fun i => match i with
                        | Stdout_data chunk | Stderr_data chunk => [chunk]
                        | _ => []
                        end) trace).

(** The text the child wrote to stderr. *)
Definition stderr_received (trace : list input) : string :=
  join EmptyString
    (flat_map (fun i => match i with
                        | Stderr_data chunk => [chunk]
                        | _ => []
                        end) trace).


(** A log publishes no record. *)
Definition is_record (e : effect) : bool :=
  match e with
  | Emit_message _ | Emit_stderr _ => true
  | _ => false
  end.

(** The session has somebody to report a failure to: an 'error' listener or
    a completion callback. *)
Definition heard (self : PythonShell) : bool :=
  negb (error_listeners self =? 0)%nat
  || match _endCallback self with Some _ => true | None => false end.

Definition is_stream_end (i : input) : bool :=
  is_stdout_end i || is_stderr_end i.

Definition is_end_with (cb : callback) (i : input) : bool :=
  match i with
  | Do_end cb' => (cb' =? cb)%nat
  | _ => false
  end.

Definition is_callback_of (cb : callback) (e : effect) : bool :=
  match e with
  | Call_endCallback cb' _ _ _ => (cb' =? cb)%nat
  | _ => false
  end.

(** [new PythonShell(script, {mode: 'binary'})] *)
Definition binary_options : Options :=
  Build_Options (Some "binary") None None None None None None None.

(* ================================================================= *)
(** ** [extend] *)

(** A plain object: its own enumerable properties in insertion order. *)
Definition object : Type := list (string * jsval).

(** [obj[key]] read; [None] when the object has no such property. *)
Fixpoint get (key : string) (obj : object) : option jsval :=
  match obj with
  | [] => None
  | (k, v) :: more => if String.eqb key k then Some v else get key more
  end.

(** [obj[key] = v] *)
Fixpoint put (key : string) (v : jsval) (obj : object) : object :=
  match obj with
  | [] => [(key, v)]
  | (k, old) :: more =>
      if String.eqb key k then (k, v) :: more else (k, old) :: put key v more
  end.

(** [for (let key in source) obj[key] = source[key]] *)
Definition copy_properties (source obj : object) : object :=
  fold_left (fun obj key =>
               match get key source with
               | Some v => put key v obj
               | None => obj
               end)
    (map fst source) obj.

(** [extend(obj, ...args)]: a source that is null or undefined is skipped. *)
Definition extend (obj : object) (args : list (option object)) : object :=
  fold_left (fun obj source =>
               match source with
               | Some src => copy_properties src obj
               | None => obj
               end)
    args obj.

(** No source defines [key]. *)
Definition undefined_in (key : string) (args : list (option object)) : Prop :=
  forall src, In (Some src) args -> get key src = None.

(* ================================================================= *)
(** ** [PythonShell.run] *)









(* ================================================================= *)
(** * Properties *)

(** ** Text *)

Lemma append_assoc (a b c : string) : (a ++ b) ++ c = a ++ (b ++ c).
Proof.
  induction a as [ | x a IH ]; cbn; [ reflexivity | now rewrite IH ].
Qed.

Lemma append_empty_r (a : string) : a ++ EmptyString = a.
Proof.
  induction a as [ | x a IH ]; cbn; [ reflexivity | now rewrite IH ].
Qed.

Lemma prefix_empty (s : string) : prefix EmptyString s = true.
Proof. destruct s; reflexivity. Qed.

(** ** Message codec *)

(** C9, counterexample.  The number 0 is not a string and its string
    representation is the text 0, yet the text formatter answers the empty
    string: the guard [if (!data) return ''] comes first. *)
Lemma toText_zero_is_empty :
  is_string (VNum 0) = false /\
  js_to_string (VNum 0) = "0" /\
  toText (VNum 0) = EmptyString /\
  toText (VNum 0) <> js_to_string (VNum 0).
Proof.
  repeat split; try reflexivity.
  vm_compute. discriminate.
Qed.

(** C9, amended.  The text formatter is the identity on every string; a
    truthy value that is not a string is converted by its string
    representation; every falsy value (undefined, null, false, 0 and the
    empty string) is encoded as the empty string. *)
Theorem toText_spec :
  forall data : jsval,
    (forall s, data = VStr s -> toText data = s) /\
    (is_string data = false -> truthy data = true ->
     toText data = js_to_string data) /\
    (truthy data = false -> toText data = EmptyString).
Proof.
  intros data. unfold toText. repeat split.
  - intros s ->. cbn. destruct s; reflexivity.
  - intros Hs Ht. rewrite Ht. cbn. destruct data; try reflexivity; discriminate.
  - intros Ht. rewrite Ht. reflexivity.
Qed.

Lemma toText_spec_witness :
  toText (VStr "hello") = "hello" /\
  toText (VNum 42) = "42" /\
  toText VNull = EmptyString.
Proof.
  split; [ | split ].
  - exact (proj1 (toText_spec (VStr "hello")) "hello" eq_refl).
  - exact (proj1 (proj2 (toText_spec (VNum 42))) eq_refl eq_refl).
  - exact (proj2 (proj2 (toText_spec VNull)) eq_refl).
Defined.

(** ** Send *)

(** C8.  [send] writes exactly one value to the child's input: the message
    encoded by the configured formatter (the message itself when no
    formatter is configured), followed by one line terminator unless the
    mode is binary, in which case nothing is appended.  In text mode
    [send("hello")] writes hello followed by one line terminator. *)
Theorem send_spec :
  forall (h : Host) (message : jsval) (self : PythonShell),
    let encoded := match formatter self with
                   | Some f => f message
                   | None => message
                   end in
    send h message self =
      (Returned tt, self,
       [Stdin_write (if String.eqb (mode self) "binary" then encoded
                     else VStr (js_to_string encoded ++ newline h))])
    /\ (forall script,
          snd (send h (VStr "hello")
                 (new_PythonShell h defaultOptions script defaultOptions))
          = [Stdin_write (VStr ("hello" ++ newline h))]).
Proof.
  intros h message self encoded. split.
  - unfold send, bind, this, perform. cbn.
    destruct (String.eqb (mode self) "binary"); reflexivity.
  - intros script. reflexivity.
Qed.

(** ** Error parser *)

(** C3, counterexample.  For the traceback of the spec's example the error's
    [traceback] field is the whole stderr text, marker line and summary line
    included; it is not the join of the lines after the marker line, with or
    without the summary line, whatever the separator. *)
Lemma parseError_traceback_is_whole_text :
  prefix "Traceback" sample_traceback = true /\
  PythonShellError.message (parseError (sample_host posix) sample_traceback)
    = "ValueError: bad" /\
  PythonShellError.traceback (parseError (sample_host posix) sample_traceback)
    = Val sample_traceback /\
  (forall sep,
      PythonShellError.traceback (parseError (sample_host posix) sample_traceback)
      <> Val (join sep (tl (removelast
                (split (EOL posix) (trim sample_traceback)))))) /\
  (forall sep,
      PythonShellError.traceback (parseError (sample_host posix) sample_traceback)
      <> Val (join sep (tl (split (EOL posix) (trim sample_traceback))))).
Proof.
  repeat split; try reflexivity; intros sep; vm_compute; discriminate.
Qed.

(** C3, amended.  When the stderr text begins with the marker Traceback, the
    error's message is the last line of the text trimmed of surrounding white
    space, its [traceback] field is the whole stderr text unchanged, and the
    lines other than the first and the last, joined by the line terminator
    followed by two spaces, are appended to the error's stack after a
    Python Traceback header.  When the marker is absent, the whole text is
    the message verbatim, nothing is appended to the stack and there is no
    [traceback] field. *)
Theorem parseError_spec :
  forall (h : Host) (data : string),
    let err := parseError h data in
    let lines := split (newline h) (trim data) in
    (prefix "Traceback" data = true ->
       PythonShellError.message err = last lines EmptyString /\
       PythonShellError.traceback err = Val data /\
       PythonShellError.stack err =
         captured_stack h (last lines EmptyString)
         ++ newline h ++ "    ----- Python Traceback -----" ++ newline h ++ "  "
         ++ join (newline h ++ "  ") (tl (removelast lines)))
    /\
    (prefix "Traceback" data = false ->
       PythonShellError.message err = data /\
       PythonShellError.traceback err = Undefined /\
       PythonShellError.stack err = captured_stack h data).
Proof.
  intros h data err lines. subst err lines. unfold parseError.
  split; intros Hp; rewrite Hp; cbn.
  - repeat split. unfold traceback_header.
    now rewrite !append_assoc.
  - repeat split.
Qed.

Lemma parseError_spec_witness :
  PythonShellError.message (parseError (sample_host posix) sample_traceback)
    = "ValueError: bad" /\
  PythonShellError.message (parseError (sample_host win32) "boom") = "boom".
Proof.
  split.
  - exact (proj1 (proj1 (parseError_spec (sample_host posix) sample_traceback)
                    eq_refl)).
  - exact (proj1 (proj2 (parseError_spec (sample_host win32) "boom") eq_refl)).
Defined.

(** ** Lifecycle controller: one call of the convergence check *)

(** The guard of [terminateIfNeeded] is the negation of [converged]. *)
Lemma guard_is_not_converged (self : PythonShell) :
  negb (stderrHasEnded self) || negb (stdoutHasEnded self)
  || (is_nullish (exitCode self) && is_nullish (exitSignal self))
  = negb (converged self).
Proof.
  unfold converged, exited.
  destruct (stderrHasEnded self), (stdoutHasEnded self),
    (exitCode self), (exitSignal self); reflexivity.
Qed.

Lemma terminateIfNeeded_waits (h : Host) (self : PythonShell) :
  converged self = false ->
  terminateIfNeeded h self = (Returned tt, self, []).
Proof.
  intros Hc. unfold terminateIfNeeded, bind, this. cbn.
  rewrite guard_is_not_converged, Hc. reflexivity.
Qed.

(** The three ways the terminal transition can go. *)
Lemma terminateIfNeeded_fires (h : Host) (self : PythonShell) :
  converged self = true ->
  terminateIfNeeded h self =
    if nonzero_code (exitCode self) then
      let err := extend_error (exit_error h self) self in
      match error_listeners self, _endCallback self with
      | O, None => (Thrown (Unhandled_error err), self, [Emit_error err])
      | O, Some _ =>
          (Returned tt, set_terminated true self,
           Emit_close :: callback_log self (Some err))
      | S _, _ =>
          (Returned tt, set_terminated true self,
           Emit_error err :: Emit_close :: callback_log self (Some err))
      end
    else
      (Returned tt, set_terminated true self,
       Emit_close :: callback_log self None).
Proof.
  intros Hc.
  unfold terminateIfNeeded, bind, this.
  rewrite guard_is_not_converged, Hc. cbn.
  open_session self.
  unfold callback_log. cbn.
  destruct (nonzero_code xcode); cbn.
  - destruct n as [ | n ], cb as [ cb | ]; reflexivity.
  - destruct cb; reflexivity.
Qed.

(** C4.  At the terminal transition an error is built if and only if the
    recorded exit code is present and non-zero.  Its message, stack and
    traceback come from the error parser when stderr text was accumulated and
    it is the generic process exited with code N error otherwise; the
    executable path, the interpreter options, the script, the script
    arguments and the exit code are attached.  It is emitted as an 'error'
    event exactly when there is an error listener or no completion callback
    is registered; a completion callback that is invoked receives it. *)
Theorem terminal_error_spec :
  forall (h : Host) (self : PythonShell),
    converged self = true ->
    exists err : option PythonShellError.t,
      ((exists e, err = Some e) <->
       (exists n, exitCode self = Val n /\ n <> 0%Z)) /\
      (forall e, err = Some e ->
         (errorData self <> EmptyString ->
            PythonShellError.message e
              = PythonShellError.message (parseError h (errorData self)) /\
            PythonShellError.stack e
              = PythonShellError.stack (parseError h (errorData self)) /\
            PythonShellError.traceback e
              = PythonShellError.traceback (parseError h (errorData self))) /\
         (errorData self = EmptyString ->
            forall n, exitCode self = Val n ->
              PythonShellError.message e
                = "process exited with code " ++ string_of_Z n /\
              PythonShellError.traceback e = Undefined) /\
         PythonShellError.executable e = Val (pythonPath self) /\
         PythonShellError.options e = or_null (pythonOptions self) /\
         PythonShellError.script e = Val (scriptPath self) /\
         PythonShellError.args e = or_null (scriptArgs self) /\
         PythonShellError.exitCode e = exitCode self) /\
      (forall e,
         In (Emit_error e) (snd (terminateIfNeeded h self)) <->
         err = Some e /\
         (error_listeners self <> 0 \/ _endCallback self = None)) /\
      (forall cb e code signal,
         In (Call_endCallback cb e code signal) (snd (terminateIfNeeded h self)) ->
         e = err).
Proof.
  intros h self Hc.
  rewrite (terminateIfNeeded_fires h self Hc).
  destruct (nonzero_code (exitCode self)) eqn:Hnz.
  - exists (Some (extend_error (exit_error h self) self)).
    assert (Hcode : exists n, exitCode self = Val n /\ n <> 0%Z).
    { unfold nonzero_code in Hnz.
      destruct (exitCode self) as [ | | n ]; try discriminate.
      exists n. split; [ reflexivity | ].
      intros ->. discriminate. }
    split; [ split; intros _; [ exact Hcode | eauto ] | ].
    split.
    { intros e [= <-]. cbn. unfold exit_error.
      destruct (String.eqb_spec (errorData self) EmptyString) as [ He | He ]; cbn.
      - repeat split; try contradiction.
        + rewrite H0. reflexivity.
      - repeat split; intros; contradiction. }
    cbn zeta. unfold callback_log.
    destruct (error_listeners self) as [ | k ], (_endCallback self) as [ cb' | ];
      cbn [snd In]; (split; [ intros e; split; intros He | intros cb e code signal He ]);
      in_log.
  - exists None.
    split.
    { split; [ intros [e He]; discriminate | ].
      intros [n [Hn Hne]]. rewrite Hn in Hnz. cbn in Hnz.
      apply Z.eqb_neq in Hne. rewrite Hne in Hnz. discriminate. }
    split; [ intros e He; discriminate | ].
    unfold callback_log.
    destruct (_endCallback self) as [ cb' | ];
      cbn [snd In]; (split; [ intros e; split; intros He | intros cb e code signal He ]);
      in_log.
Qed.

Lemma terminal_error_spec_witness :
  converged sample_failed = true /\
  exists err : option PythonShellError.t,
    ((exists e, err = Some e) <->
     (exists n, exitCode sample_failed = Val n /\ n <> 0%Z)) /\
    (forall cb e code signal,
        In (Call_endCallback cb e code signal)
          (snd (terminateIfNeeded (sample_host posix) sample_failed)) ->
        e = err).
Proof.
  split; [ reflexivity | ].
  destruct (terminal_error_spec (sample_host posix) sample_failed eq_refl)
    as (err & H1 & _ & _ & H4).
  exists err. split; assumption.
Defined.

(** C10.  When the recorded exit code is null and an exit signal is
    recorded, the terminal transition builds no error, whatever stderr text
    was accumulated: it marks the session terminated, fires 'close', and
    calls the completion callback, if one is registered, with an undefined
    error, the null exit code and the signal. *)
Theorem signal_exit_spec :
  forall (h : Host) (self : PythonShell) (signal : string),
    stdoutHasEnded self = true ->
    stderrHasEnded self = true ->
    exitCode self = Null ->
    exitSignal self = Val signal ->
    terminateIfNeeded h self =
      (Returned tt, set_terminated true self,
       Emit_close ::
       match _endCallback self with
       | Some cb => [Call_endCallback cb None Null (Val signal)]
       | None => []
       end).
Proof.
  intros h self signal Hout Herr Hcode Hsig.
  rewrite terminateIfNeeded_fires.
  - rewrite Hcode. cbn. unfold callback_log. rewrite Hcode, Hsig. reflexivity.
  - unfold converged, exited. rewrite Hout, Herr, Hsig.
    destruct (exitCode self); reflexivity.
Qed.

Lemma signal_exit_spec_witness :
  errorData sample_killed = "boom" /\
  snd (terminateIfNeeded (sample_host posix) sample_killed)
  = [Emit_close; Call_endCallback 7 None Null (Val "SIGTERM")].
Proof.
  split; [ reflexivity | ].
  exact (f_equal snd
           (signal_exit_spec (sample_host posix) sample_killed "SIGTERM"
              eq_refl eq_refl eq_refl eq_refl)).
Defined.

(** ** The framer, one call *)

Lemma split_from_not_nil (sep : string) (s : string) :
  forall skip, split_from sep skip s <> [].
Proof.
  induction s as [ | c s IH ]; intros skip; cbn [split_from].
  - discriminate.
  - destruct skip as [ | k ]; [ | apply IH ].
    destruct (prefix sep (String c s)); [ discriminate | ].
    destruct (split_from sep 0 s); discriminate.
Qed.

Lemma split_not_nil (sep s : string) : split sep s <> [].
Proof. apply split_from_not_nil. Qed.

Lemma forEach_emits (emitType : EmitType) (codec : option (string -> jsval))
  (F : string -> M unit) :
  (forall part s,
      F part s = match codec with
                 | Some f => (Returned tt, s, [event_of emitType (f part)])
                 | None => (Thrown TypeError_not_a_function, s, [])
                 end) ->
  forall (parts : list string) (self : PythonShell),
    forEach parts F self
    = match codec, parts with
      | Some f, _ =>
          (Returned tt, self, map (fun part => event_of emitType (f part)) parts)
      | None, [] => (Returned tt, self, [])
      | None, _ :: _ => (Thrown TypeError_not_a_function, self, [])
      end.
Proof.
  intros HF parts self.
  induction parts as [ | part parts IH ].
  - destruct codec; reflexivity.
  - cbn [forEach]. unfold bind. rewrite HF.
    destruct codec as [ f | ]; [ | reflexivity ].
    rewrite IH. reflexivity.
Qed.

(** [recieveInternal] in closed form. *)
Lemma recieveInternal_framed (h : Host) (data : string) (emitType : EmitType)
  (self : PythonShell) :
  let pieces := framed (newline h) (or_empty (_remaining self)) data in
  let self' := set_remaining (Val (last pieces EmptyString)) self in
  recieveInternal h data emitType self =
    match removelast pieces, codec_of emitType self with
    | [], _ => (Returned tt, self', [])
    | records, Some f =>
        (Returned tt, self', map (fun part => event_of emitType (f part)) records)
    | _ :: _, None => (Thrown TypeError_not_a_function, self', [])
    end.
Proof.
  cbn zeta. unfold recieveInternal, framed, bind, this, modify.
  pose proof (split_not_nil (newline h) data) as Hne.
  destruct (split (newline h) data) as [ | p0 [ | p1 ps ] ]; [ congruence | | ].
  - reflexivity.
  - cbn [List.length Nat.eqb hd].
    set (parts := p0 :: p1 :: ps).
    assert (Hlast : last ((or_empty (_remaining self) ++ p0) :: p1 :: ps) EmptyString
                    = last parts EmptyString) by reflexivity.
    rewrite Hlast.
    assert (Hrec : removelast ((or_empty (_remaining self) ++ p0) :: p1 :: ps)
                   = (or_empty (_remaining self) ++ hd EmptyString (removelast parts))
                       :: tl (removelast parts)) by reflexivity.
    rewrite Hrec.
    set (records := (or_empty (_remaining self) ++ hd EmptyString (removelast parts))
                      :: tl (removelast parts)).
    rewrite (forEach_emits emitType (codec_of emitType self)).
    + destruct (codec_of emitType self); reflexivity.
    + intros part s. destruct emitType; cbn [codec_of event_of];
        [ destruct (parser self) | destruct (stderrParser self) ]; reflexivity.
Qed.

(** ** The event loop *)

Lemma count_app (p : effect -> bool) (l1 l2 : list effect) :
  count p (l1 ++ l2) = count p l1 + count p l2.
Proof. unfold count. now rewrite filter_app, length_app. Qed.

Lemma run_cons (h : Host) (i : input) (rest : list input) (self : PythonShell) :
  run h (i :: rest) self =
    (fst (run h rest (fst (turn h i self))),
     (snd (turn h i self) ++ snd (run h rest (fst (turn h i self))))%list).
Proof.
  cbn [run]. destruct (turn h i self) as [self1 l1]. cbn [fst snd].
  destruct (run h rest self1) as [self2 l2]. reflexivity.
Qed.

Lemma no_transition_app (l1 l2 : list effect) :
  no_transition l1 -> no_transition l2 -> no_transition (l1 ++ l2).
Proof.
  unfold no_transition. rewrite !count_app. lia.
Qed.

Lemma one_transition_app_l (l1 l2 : list effect) :
  one_transition l1 -> no_transition l2 -> one_transition (l1 ++ l2).
Proof.
  unfold one_transition, no_transition. rewrite !count_app. lia.
Qed.

Lemma one_transition_app_r (l1 l2 : list effect) :
  no_transition l1 -> one_transition l2 -> one_transition (l1 ++ l2).
Proof.
  unfold one_transition, no_transition. rewrite !count_app. lia.
Qed.

Lemma no_transition_map_event (emitType : EmitType) (f : string -> jsval)
  (records : list string) :
  no_transition (map (fun part => event_of emitType (f part)) records).
Proof.
  unfold no_transition, count.
  induction records as [ | r records IH ]; [ repeat split | ].
  cbn [map filter]. destruct emitType; cbn; exact IH.
Qed.

(** A completion listener records its fact and runs the convergence check. *)
Lemma turn_signal (h : Host) (i : input) (self : PythonShell) :
  is_signal i = true ->
  turn h i self =
    if converged (record_signal i self)
    then transition h (record_signal i self)
    else (record_signal i self, []).
Proof.
  intros Hi.
  assert (Hd : dispatch h i self = terminateIfNeeded h (record_signal i self)).
  { destruct i; try discriminate Hi; cbn [dispatch record_signal];
      unfold on_stdout_end, on_stderr_end, on_exit, bind, modify;
      match goal with
      | |- context [terminateIfNeeded h ?s] =>
          destruct (terminateIfNeeded h s) as [[r s2] l2]
      end; reflexivity. }
  unfold turn. rewrite Hd.
  destruct (converged (record_signal i self)) eqn:Hc.
  - rewrite (terminateIfNeeded_fires h _ Hc). unfold transition.
    destruct (nonzero_code (exitCode (record_signal i self))); [ | reflexivity ].
    cbn zeta.
    destruct (error_listeners (record_signal i self)),
      (_endCallback (record_signal i self)); reflexivity.
  - rewrite (terminateIfNeeded_waits h _ Hc). reflexivity.
Qed.

Lemma transition_once (h : Host) (self : PythonShell) :
  one_transition (snd (transition h self)) /\
  facts (fst (transition h self)) = facts self.
Proof.
  unfold transition, one_transition, callback_log, count.
  destruct (nonzero_code (exitCode self));
    [ destruct (error_listeners self), (_endCallback self) | destruct (_endCallback self) ];
    cbn; repeat split; lia.
Qed.

(** Data, [send], [end], [terminate] and [on('error')] leave the completion
    facts alone and never take the terminal transition. *)
Lemma turn_quiet (h : Host) (i : input) (self : PythonShell) :
  is_signal i = false ->
  facts (fst (turn h i self)) = facts self /\
  no_transition (snd (turn h i self)).
Proof.
  intros Hi. unfold turn.
  destruct i; try discriminate Hi; cbn [dispatch].
  - (* stdout data *)
    unfold on_stdout_data, bind, this, receive.
    destruct (parser self) as [ f | ] eqn:Hp; [ | split; [ reflexivity | repeat split ] ].
    rewrite recieveInternal_framed. cbn zeta. cbn [codec_of]. rewrite Hp.
    destruct (removelast _) as [ | r rs ]; cbn [fst snd]; rewrite ?app_nil_r.
    + split; [ reflexivity | repeat split ].
    + split; [ reflexivity | apply no_transition_map_event ].
  - (* stderr data *)
    unfold on_stderr_data, bind, modify, receiveStderr.
    rewrite recieveInternal_framed. cbn zeta. cbn [codec_of].
    destruct (removelast _) as [ | r rs ];
      [ | destruct (stderrParser _) as [ f | ] ]; cbn [fst snd app].
    + split; [ reflexivity | repeat split ].
    + split; [ reflexivity | apply no_transition_map_event ].
    + split; [ reflexivity | repeat split ].
  - (* send *)
    unfold send, bind, this, perform. cbn.
    split; [ reflexivity | repeat split ].
  - (* end *)
    split; [ reflexivity | repeat split ].
  - (* terminate *)
    split; [ reflexivity | repeat split ].
  - (* on('error') *)
    split; [ reflexivity | repeat split ].
Qed.

Lemma converged_facts (s1 s2 : PythonShell) :
  facts s1 = facts s2 -> converged s1 = converged s2.
Proof.
  unfold facts, converged, exited. intros [= -> -> -> ->]. reflexivity.
Qed.

Lemma occurrences_cons (p : input -> bool) (i : input) (rest : list input) :
  occurrences p (i :: rest) = (if p i then 1 else 0) + occurrences p rest.
Proof. unfold occurrences. cbn. destruct (p i); reflexivity. Qed.

(** Without a completion signal nothing of the terminal transition happens. *)
Lemma run_without_signal (h : Host) (trace : list input) :
  forallb (fun i => negb (is_signal i)) trace = true ->
  forall self, no_transition (snd (run h trace self)).
Proof.
  induction trace as [ | i rest IH ]; intros Hq self.
  - repeat split.
  - cbn [forallb] in Hq. apply andb_prop in Hq as [Hi Hrest].
    apply negb_true_iff in Hi.
    rewrite run_cons. cbn [snd].
    apply no_transition_app; [ apply turn_quiet, Hi | apply IH, Hrest ].
Qed.

Lemma facts_inv (s1 s2 : PythonShell) :
  facts s1 = facts s2 ->
  stdoutHasEnded s1 = stdoutHasEnded s2 /\
  stderrHasEnded s1 = stderrHasEnded s2 /\
  exited s1 = exited s2.
Proof.
  unfold facts, exited. intros [= -> -> -> ->]. repeat split.
Qed.

Lemma pending_facts (s1 s2 : PythonShell) (trace : list input) :
  facts s1 = facts s2 -> pending s1 trace -> pending s2 trace.
Proof.
  intros Hf. apply facts_inv in Hf as (H1 & H2 & H3).
  unfold pending. now rewrite H1, H2, H3.
Qed.

Lemma missing_facts (s1 s2 : PythonShell) (trace : list input) :
  facts s1 = facts s2 -> missing s1 trace -> missing s2 trace.
Proof.
  intros Hf. apply facts_inv in Hf as (H1 & H2 & H3).
  unfold missing. now rewrite H1, H2, H3.
Qed.

Lemma turn_facts (h : Host) (i : input) (self : PythonShell) :
  facts (fst (turn h i self)) = facts (record_signal i self).
Proof.
  destruct (is_signal i) eqn:Hi.
  - rewrite (turn_signal h i self Hi).
    destruct (converged (record_signal i self)); [ | reflexivity ].
    apply transition_once.
  - destruct (turn_quiet h i self Hi) as [Hf _]. rewrite Hf.
    destruct i; try discriminate Hi; reflexivity.
Qed.

Lemma pending_step (i : input) (rest : list input) (self : PythonShell) :
  pending self (i :: rest) -> pending (record_signal i self) rest.
Proof.
  unfold pending. rewrite !occurrences_cons. cbn [forallb].
  intros (Hout & Herr & Hexit & Hrep).
  apply andb_prop in Hrep as [Hi Hrep].
  open_session self. unfold exited in *. cbn in *.
  destruct i as [ c | c | | | [ c | ] [ s | ] | m | k | s | ]; cbn in *;
    try discriminate Hi;
    destruct oend, eend, xcode, xsig; cbn in *; repeat split; try lia; auto.
Qed.

Lemma missing_step (i : input) (rest : list input) (self : PythonShell) :
  missing self (i :: rest) ->
  converged (record_signal i self) = false /\
  missing (record_signal i self) rest.
Proof.
  unfold missing, converged. rewrite !occurrences_cons.
  open_session self. unfold exited. cbn.
  intros [ [Hf Ho] | [ [Hf Ho] | [Hf Ho] ] ]; subst;
    destruct i as [ c | c | | | [ c | ] [ s | ] | m | k | s | ]; cbn in *;
    try discriminate Ho; try lia;
    rewrite ?andb_false_r, ?Hf; cbn; (split; [ try reflexivity | ]).
  all: try (destruct oend; reflexivity).
  all: try (left; split; [ reflexivity | lia ]).
  all: try (right; left; split; [ reflexivity | lia ]).
  all: try (right; right; split; [ first [ assumption | reflexivity ] | lia ]).
  all: try (destruct oend, eend; reflexivity).
Qed.

(** A check made while a fact is missing takes no transition; so no
    transition is taken before the last missing signal has arrived. *)
Lemma run_missing (h : Host) (trace : list input) :
  forall self, missing self trace -> no_transition (snd (run h trace self)).
Proof.
  induction trace as [ | i rest IH ]; intros self Hm.
  - repeat split.
  - rewrite run_cons. cbn [snd].
    destruct (missing_step i rest self Hm) as [Hc Hm'].
    apply no_transition_app.
    + destruct (is_signal i) eqn:Hi.
      * rewrite (turn_signal h i self Hi), Hc. repeat split.
      * apply turn_quiet, Hi.
    + apply IH. apply (missing_facts (record_signal i self)); [ | exact Hm' ].
      symmetry. apply turn_facts.
Qed.

Lemma pending_converged (self : PythonShell) (trace : list input) :
  pending self trace -> converged self = true ->
  forallb (fun i => negb (is_signal i)) trace = true.
Proof.
  unfold pending, converged. intros (Hout & Herr & Hexit & _) Hc.
  apply andb_prop in Hc as [Hc Hc3]. apply andb_prop in Hc as [Hc1 Hc2].
  rewrite Hc1 in Hout. rewrite Hc2 in Herr. rewrite Hc3 in Hexit.
  clear Hc1 Hc2 Hc3.
  induction trace as [ | i rest IH ]; [ reflexivity | ].
  rewrite occurrences_cons in Hout, Herr, Hexit.
  cbn [forallb]. unfold is_signal at 1.
  destruct (is_stdout_end i), (is_stderr_end i), (is_exit i); try discriminate.
  cbn. apply IH; assumption.
Qed.

(** When every completion signal that is still due arrives exactly once, the
    terminal transition is taken exactly once. *)
Lemma run_converges (h : Host) (trace : list input) :
  forall self,
    pending self trace -> converged self = false ->
    one_transition (snd (run h trace self)).
Proof.
  induction trace as [ | i rest IH ]; intros self Hp Hc.
  - exfalso. unfold pending, occurrences in Hp. cbn in Hp.
    unfold converged in Hc.
    destruct Hp as (H1 & H2 & H3 & _).
    destruct (stdoutHasEnded self), (stderrHasEnded self), (exited self);
      discriminate.
  - rewrite run_cons. cbn [snd].
    pose proof (pending_step i rest self Hp) as Hp'.
    pose proof (turn_facts h i self) as Hf.
    destruct (is_signal i) eqn:Hi.
    + rewrite (turn_signal h i self Hi) in *.
      destruct (converged (record_signal i self)) eqn:Hc'.
      * apply one_transition_app_l; [ apply transition_once | ].
        apply run_without_signal.
        apply (pending_converged (record_signal i self)); assumption.
      * cbn [fst snd app]. apply IH; assumption.
    + apply one_transition_app_r; [ apply turn_quiet, Hi | ].
      apply IH.
      * apply (pending_facts (record_signal i self)); [ now symmetry | exact Hp' ].
      * rewrite (converged_facts _ _ Hf).
        destruct i; try discriminate Hi; exact Hc.
Qed.

Lemma fresh_pending (self : PythonShell) (trace : list input) :
  fresh self = true ->
  occurrences is_stdout_end trace = 1 ->
  occurrences is_stderr_end trace = 1 ->
  occurrences is_exit trace = 1 ->
  forallb reported trace = true ->
  pending self trace /\ converged self = false.
Proof.
  unfold fresh, pending, converged. intros Hf H1 H2 H3 H4.
  destruct (stdoutHasEnded self), (stderrHasEnded self), (exited self);
    try discriminate Hf.
  repeat split; assumption.
Qed.

Lemma permutation3 {A : Type} (a b c : A) (l : list A) :
  Permutation l [a; b; c] ->
  l = [a; b; c] \/ l = [a; c; b] \/ l = [b; a; c] \/
  l = [b; c; a] \/ l = [c; a; b] \/ l = [c; b; a].
Proof.
  intros H.
  destruct (Permutation_vs_cons_inv H) as (l1 & l2 & ->).
  apply Permutation_sym, Permutation_cons_app_inv, Permutation_length_2_inv in H.
  destruct l1 as [ | x [ | y [ | z l1 ] ] ]; cbn in H |- *;
    destruct H as [ H | H ]; inversion H; subst; cbn; tauto.
Qed.

Lemma transition_close_count (h : Host) (self : PythonShell) :
  count is_close (snd (transition h self))
  = if unheard_failure self then 0 else 1.
Proof.
  unfold transition, unheard_failure, callback_log, count.
  destruct (nonzero_code (exitCode self));
    [ destruct (error_listeners self), (_endCallback self) | destruct (_endCallback self) ];
    reflexivity.
Qed.

Lemma close_count_of_order (h : Host) (x y z : input) (self : PythonShell) :
  is_signal x = true -> is_signal y = true -> is_signal z = true ->
  converged (record_signal x self) = false ->
  converged (record_signal y (record_signal x self)) = false ->
  converged (record_signal z (record_signal y (record_signal x self))) = true ->
  count is_close (snd (run h [x; y; z] self))
  = if unheard_failure (record_signal z (record_signal y (record_signal x self)))
    then 0 else 1.
Proof.
  intros Hx Hy Hz H1 H2 H3.
  rewrite run_cons, (turn_signal h x self Hx), H1. cbn [fst snd app].
  rewrite run_cons, (turn_signal h y _ Hy), H2. cbn [fst snd app].
  rewrite run_cons, (turn_signal h z _ Hz), H3. cbn [run snd].
  rewrite app_nil_r. apply transition_close_count.
Qed.

(** C1, counterexample.  A session without 'error' listener and without
    completion callback whose process exits with code 1: the three completion
    signals arrive, the terminal transition emits the error, the emit throws
    because nobody listens, and 'close' is never fired. *)
Lemma unheard_failure_fires_no_close :
  fresh (sample_shell posix) = true /\
  count is_close
    (snd (run (sample_host posix) [Stdout_end; Stderr_end; Exit (Some 1%Z) None]
            (sample_shell posix))) = 0 /\
  count is_unhandled_error
    (snd (run (sample_host posix) [Stdout_end; Stderr_end; Exit (Some 1%Z) None]
            (sample_shell posix))) = 1.
Proof. repeat split. Qed.

(** C1, amended.  (1) A call of the convergence check while a completion
    fact is missing changes nothing and emits nothing.  (2) As long as the
    signal of a missing fact has not arrived, 'close' is not fired.  (3) For
    every arrival order of the three completion signals, with the exit
    carrying a code or a signal, 'close' is fired exactly once -- except when
    the exit code is non-zero and the session has neither an 'error' listener
    nor a completion callback: then the error is emitted unheard, the emit
    throws, and 'close' is not fired. *)
Theorem convergence_spec :
  forall h : Host,
    (forall self,
        converged self = false ->
        terminateIfNeeded h self = (Returned tt, self, [])) /\
    (forall self trace,
        missing self trace ->
        count is_close (snd (run h trace self)) = 0) /\
    (forall self code signal trace,
        fresh self = true ->
        reported (Exit code signal) = true ->
        Permutation trace [Stdout_end; Stderr_end; Exit code signal] ->
        count is_close (snd (run h trace self))
        = if unheard_failure (set_exitCode (of_option code) self) then 0 else 1).
Proof.
  intros h. split; [ | split ].
  - intros self Hc. apply terminateIfNeeded_waits, Hc.
  - intros self trace Hm. apply (run_missing h trace self Hm).
  - intros self code signal trace Hf Hr Hp.
    apply permutation3 in Hp.
    assert (Hu : forall s,
               (stdoutHasEnded s, stderrHasEnded s) = (true, true) ->
               exitCode s = of_option code ->
               error_listeners s = error_listeners self ->
               _endCallback s = _endCallback self ->
               unheard_failure s
               = unheard_failure (set_exitCode (of_option code) self)).
    { intros s _ H1 H2 H3. unfold unheard_failure. rewrite H1, H2, H3.
      open_session self. reflexivity. }
    unfold fresh, exited in Hf.
    destruct Hp as [ -> | [ -> | [ -> | [ -> | [ -> | -> ] ] ] ] ];
      rewrite close_count_of_order; try reflexivity;
      try (apply Hu; open_session self; reflexivity);
      open_session self; unfold converged, exited; cbn in *;
      destruct oend, eend, xcode, xsig; try discriminate Hf;
      destruct code, signal; try discriminate Hr; reflexivity.
Qed.

Lemma convergence_spec_witness :
  fresh (sample_shell posix) = true /\
  count is_close
    (snd (run (sample_host posix) [Stderr_end; Exit (Some 0%Z) None; Stdout_end]
            (sample_shell posix))) = 1.
Proof.
  split; [ reflexivity | ].
  exact (proj2 (proj2 (convergence_spec (sample_host posix)))
           (sample_shell posix) (Some 0%Z) None
           [Stderr_end; Exit (Some 0%Z) None; Stdout_end]
           eq_refl eq_refl
           (Permutation_sym
              (Permutation_cons_append [Stderr_end; Exit (Some 0%Z) None] Stdout_end))).
Defined.

(** C5, counterexample.  [terminate()] is called, the process still exits on
    its own with code 1, and the session has neither an 'error' listener nor
    a completion callback: no 'close' event is produced.  The same holds
    when [terminate()] is called after that exit. *)
Lemma terminate_with_unheard_failure_fires_no_close :
  count is_close
    (snd (run (sample_host posix)
            [Do_terminate None; Stdout_end; Stderr_end; Exit (Some 1%Z) None]
            (sample_shell posix))) = 0 /\
  count is_close
    (snd (run (sample_host posix)
            [Stdout_end; Stderr_end; Exit (Some 1%Z) None; Do_terminate None]
            (sample_shell posix))) = 0.
Proof. split; reflexivity. Qed.

(** C5, amended.  Whenever [terminate()] is called -- before or after the
    process exits -- and each completion signal is delivered once, the session
    produces at most one 'close' event and at most one invocation of the
    completion callback; 'close' is produced exactly once unless the terminal
    transition emitted the error of a non-zero exit with no 'error' listener
    and no completion callback registered, in which case that emit throws and
    'close' is not fired. *)
Theorem no_double_termination :
  forall (h : Host) (self : PythonShell) (before after : list input)
         (signal : option string),
    fresh self = true ->
    occurrences is_stdout_end (before ++ Do_terminate signal :: after) = 1 ->
    occurrences is_stderr_end (before ++ Do_terminate signal :: after) = 1 ->
    occurrences is_exit (before ++ Do_terminate signal :: after) = 1 ->
    forallb reported (before ++ Do_terminate signal :: after) = true ->
    count is_close
      (snd (run h (before ++ Do_terminate signal :: after) self)) <= 1 /\
    count is_endCallback
      (snd (run h (before ++ Do_terminate signal :: after) self)) <= 1 /\
    count is_close
      (snd (run h (before ++ Do_terminate signal :: after) self))
    + count is_unhandled_error
        (snd (run h (before ++ Do_terminate signal :: after) self)) = 1.
Proof.
  intros h self before after signal Hf H1 H2 H3 H4.
  destruct (fresh_pending self _ Hf H1 H2 H3 H4) as [Hp Hc].
  destruct (run_converges h _ self Hp Hc) as [Hone Hcb].
  repeat split; lia.
Qed.

Lemma no_double_termination_witness :
  count is_close
    (snd (run (sample_host posix)
            ([Do_end 7; Stdout_end; Stderr_end; Exit (Some 0%Z) None]
             ++ Do_terminate None :: [])
            (sample_shell posix))) <= 1 /\
  count is_close
    (snd (run (sample_host posix)
            ([Do_end 7] ++ Do_terminate (Some "SIGKILL")
             :: [Stderr_end; Exit None (Some "SIGKILL"); Stdout_end])
            (sample_shell posix))) <= 1.
Proof.
  split.
  - exact (proj1 (no_double_termination (sample_host posix) (sample_shell posix)
                    [Do_end 7; Stdout_end; Stderr_end; Exit (Some 0%Z) None] []
                    None eq_refl eq_refl eq_refl eq_refl eq_refl)).
  - exact (proj1 (no_double_termination (sample_host posix) (sample_shell posix)
                    [Do_end 7] [Stderr_end; Exit None (Some "SIGKILL"); Stdout_end]
                    (Some "SIGKILL") eq_refl eq_refl eq_refl eq_refl eq_refl)).
Defined.

(** ** Line framer on concrete chunks *)

(** C2, failing input.  On a Windows host, where the line terminator is
    carriage return + line feed, the text a CR LF b CR LF delivered as the two
    chunks (a CR) and (LF b CR LF) yields the single record (a CR LF b);
    delivered as one chunk it yields the two records a and b. *)
Lemma crlf_split_across_chunks :
  snd (run (sample_host win32)
         [Stdout_data ("a" ++ String CR EmptyString);
          Stdout_data (String LF "b" ++ EOL win32)]
         (sample_shell win32))
  = [Emit_message (VStr ("a" ++ EOL win32 ++ "b"))] /\
  snd (run (sample_host win32)
         [Stdout_data (("a" ++ String CR EmptyString) ++ String LF "b" ++ EOL win32)]
         (sample_shell win32))
  = [Emit_message (VStr "a"); Emit_message (VStr "b")].
Proof. split; reflexivity. Qed.

(** C6, failing input.  On a Windows host the chunks (a CR) and (LF b) each
    split into a single piece, so both are appended to the buffer and nothing
    is emitted: the buffer then holds the complete record a together with its
    terminator. *)
Lemma crlf_buffer_holds_a_record :
  split (EOL win32) ("a" ++ String CR EmptyString) = ["a" ++ String CR EmptyString] /\
  split (EOL win32) (String LF "b") = [String LF "b"] /\
  run (sample_host win32)
    [Stdout_data ("a" ++ String CR EmptyString); Stdout_data (String LF "b")]
    (sample_shell win32)
  = (set_remaining (Val ("a" ++ EOL win32 ++ "b")) (sample_shell win32), []) /\
  split (EOL win32) ("a" ++ EOL win32 ++ "b") = ["a"; "b"].
Proof. repeat split; reflexivity. Qed.

(** C7, failing input.  A fragment buffered from stdout is put in front of
    the next record that arrives on stderr: after the stdout chunk abc, the
    stderr chunk (err LF) is published as the stderr record abcerr. *)
Lemma stdout_fragment_leaks_into_stderr :
  snd (run (sample_host posix)
         [Stdout_data "abc"; Stderr_data ("err" ++ EOL posix)]
         (sample_shell posix))
  = [Emit_stderr (VStr "abcerr")] /\
  snd (run (sample_host posix)
         [Stderr_data ("err" ++ EOL posix)]
         (sample_shell posix))
  = [Emit_stderr (VStr "err")].
Proof. split; reflexivity. Qed.

(** ** Line framer with a one-character terminator *)

Lemma framed_not_nil (sep buf data : string) : framed sep buf data <> [].
Proof.
  unfold framed. destruct (split sep data); discriminate.
Qed.

Lemma framed_lf_cons (buf : string) (c : ascii) (rest : string) :
  framed (EOL posix) buf (String c rest) =
    if ascii_dec LF c
    then buf :: framed (EOL posix) EmptyString rest
    else framed (EOL posix) (buf ++ String c EmptyString) rest.
Proof.
  unfold framed, split, EOL. cbn [split_from prefix String.length Nat.sub].
  pose proof (split_from_not_nil (String LF EmptyString) rest 0) as Hne.
  destruct (ascii_dec LF c) as [ _ | _ ].
  - rewrite prefix_empty, append_empty_r.
    destruct (split_from (String LF EmptyString) 0 rest); [ congruence | reflexivity ].
  - destruct (split_from (String LF EmptyString) 0 rest) as [ | piece more ];
      [ congruence | ].
    rewrite append_assoc. reflexivity.
Qed.




Lemma join_empty_cons (c : string) (cs : list string) :
  join EmptyString (c :: cs) = c ++ join EmptyString cs.
Proof.
  unfold join. cbn [String.concat].
  destruct cs; [ now rewrite append_empty_r | reflexivity ].
Qed.

(** One 'data' notification, in terms of [framed]. *)
Lemma turn_data (h : Host) (emitType : EmitType) (chunk : string)
  (self : PythonShell) (f : string -> jsval) :
  codec_of emitType self = Some f ->
  let pieces := framed (newline h) (or_empty (_remaining self)) chunk in
  snd (turn h (data_input emitType chunk) self)
    = map (fun part => event_of emitType (f part)) (removelast pieces) /\
  or_empty (_remaining (fst (turn h (data_input emitType chunk) self)))
    = last pieces EmptyString /\
  codec_of emitType (fst (turn h (data_input emitType chunk) self)) = Some f.
Proof.
  intros Hf. cbn zeta. unfold turn.
  destruct emitType; cbn [data_input dispatch codec_of] in *.
  - unfold on_stdout_data, bind, this, receive. rewrite Hf.
    rewrite recieveInternal_framed. cbn zeta. cbn [codec_of]. rewrite Hf.
    destruct (removelast _); cbn; rewrite ?app_nil_r; repeat split; assumption.
  - unfold on_stderr_data, bind, modify, receiveStderr.
    rewrite recieveInternal_framed. cbn zeta. cbn [codec_of].
    change (stderrParser (set_errorData _ self)) with (stderrParser self).
    change (_remaining (set_errorData _ self)) with (_remaining self).
    rewrite Hf.
    destruct (removelast _); cbn; repeat split; assumption.
Qed.






(** ** The buffer on a POSIX host *)

Lemma lf_free_app (a b : string) :
  lf_free a = true -> lf_free b = true -> lf_free (a ++ b) = true.
Proof.
  intros Ha Hb. induction a as [ | c a IH ]; cbn [lf_free String.append] in *;
    [ exact Hb | ].
  destruct (ascii_dec LF c); [ discriminate | auto ].
Qed.

Lemma framed_lf_free (data : string) :
  forall buf,
    lf_free buf = true ->
    Forall (fun piece => lf_free piece = true) (framed (EOL posix) buf data).
Proof.
  induction data as [ | c data IH ]; intros buf Hb.
  - change (framed (EOL posix) buf EmptyString) with [buf ++ EmptyString].
    rewrite append_empty_r. constructor; [ exact Hb | constructor ].
  - rewrite framed_lf_cons. destruct (ascii_dec LF c) as [ e | ne ].
    + constructor; [ exact Hb | apply IH; reflexivity ].
    + apply IH. apply lf_free_app; [ exact Hb | ].
      cbn [lf_free]. destruct (ascii_dec LF c); [ contradiction | reflexivity ].
Qed.

Lemma Forall_last {A : Type} (P : A -> Prop) (l : list A) (d : A) :
  Forall P l -> l <> [] -> P (last l d).
Proof.
  induction 1 as [ | x l Hx Hl IH ]; [ congruence | intros _ ].
  destruct l as [ | y l ]; [ exact Hx | ].
  apply IH. discriminate.
Qed.

Lemma framed_empty_buffer (sep s : string) :
  framed sep EmptyString s = split sep s.
Proof.
  unfold framed. pose proof (split_not_nil sep s) as Hne.
  destruct (split sep s); [ congruence | reflexivity ].
Qed.

Lemma lf_free_split (s : string) :
  lf_free s = true <-> split (EOL posix) s = [s].
Proof.
  rewrite <- framed_empty_buffer.
  induction s as [ | c s IH ].
  - split; reflexivity.
  - rewrite framed_lf_cons. cbn [lf_free String.append].
    destruct (ascii_dec LF c) as [ e | ne ].
    + split; [ discriminate | intros H; inversion H ].
    + unfold framed in *.
      pose proof (split_not_nil (EOL posix) s) as Hne.
      destruct (split (EOL posix) s) as [ | piece more ]; [ congruence | ].
      cbn [String.append] in *. rewrite IH. split.
      * intros [= -> ->]. reflexivity.
      * intros [= -> ->]. reflexivity.
Qed.

Lemma transition_remaining (h : Host) (self : PythonShell) :
  _remaining (fst (transition h self)) = _remaining self.
Proof.
  unfold transition.
  destruct (nonzero_code (exitCode self)); cbn zeta;
    [ destruct (error_listeners self), (_endCallback self) | ]; reflexivity.
Qed.

Lemma turn_remaining (h : Host) (i : input) (self : PythonShell) :
  or_empty (_remaining (fst (turn h i self))) = or_empty (_remaining self) \/
  exists chunk,
    or_empty (_remaining (fst (turn h i self)))
    = last (framed (newline h) (or_empty (_remaining self)) chunk) EmptyString.
Proof.
  destruct (is_signal i) eqn:Hi.
  - left. rewrite (turn_signal h i self Hi).
    assert (Hr : _remaining (record_signal i self) = _remaining self)
      by (destruct i; reflexivity).
    destruct (converged (record_signal i self));
      [ rewrite transition_remaining | ]; cbn [fst]; now rewrite Hr.
  - unfold turn. destruct i; try discriminate Hi; cbn [dispatch];
      try (left; reflexivity).
    + unfold on_stdout_data, bind, this, receive.
      destruct (parser self) as [ f | ] eqn:Hp; [ | left; reflexivity ].
      right. exists chunk.
      rewrite recieveInternal_framed. cbn zeta.
      destruct (removelast _); [ | destruct (codec_of _ _) ]; reflexivity.
    + right. exists chunk.
      unfold on_stderr_data, bind, modify, receiveStderr.
      rewrite recieveInternal_framed. cbn zeta.
      destruct (removelast _); [ | destruct (codec_of _ _) ]; reflexivity.
Qed.

(** X3.  On a POSIX host the buffer never holds a complete record: if it holds
    none before a run of the event loop, it holds none after it, whatever
    arrives on either stream and whatever the owner calls. *)
Theorem buffer_holds_no_record_posix :
  forall (h : Host) (trace : list input) (self : PythonShell),
    platform h = posix ->
    holds_no_record h self ->
    holds_no_record h (fst (run h trace self)).
Proof.
  intros h trace self Hposix. unfold holds_no_record, newline. rewrite Hposix.
  rewrite <- !lf_free_split.
  revert self. induction trace as [ | i rest IH ]; intros self Hb; [ exact Hb | ].
  rewrite run_cons. cbn [fst]. apply IH.
  destruct (turn_remaining h i self) as [ -> | [chunk ->] ]; [ exact Hb | ].
  unfold newline. rewrite Hposix.
  apply (Forall_last (fun piece => lf_free piece = true));
    [ apply framed_lf_free, Hb | apply framed_not_nil ].
Qed.

Lemma buffer_holds_no_record_posix_witness :
  holds_no_record (sample_host posix)
    (fst (run (sample_host posix)
            [Stdout_data ("a" ++ EOL posix ++ "b"); Stderr_data "c"; Stdout_end]
            (sample_shell posix))).
Proof.
  exact (buffer_holds_no_record_posix (sample_host posix)
           [Stdout_data ("a" ++ EOL posix ++ "b"); Stderr_data "c"; Stdout_end]
           (sample_shell posix) eq_refl eq_refl).
Defined.

(* ================================================================= *)
(** * Further properties *)

(** ** Splitting and joining *)

Lemma join_cons_more (sep x y : string) (more : list string) :
  join sep (x :: y :: more) = x ++ sep ++ join sep (y :: more).
Proof. reflexivity. Qed.

Lemma join_cons_char (sep : string) (c : ascii) (piece : string)
  (more : list string) :
  join sep (String c piece :: more) = String c (join sep (piece :: more)).
Proof. destruct more; reflexivity. Qed.

Lemma split_from_skip (sep : string) (u : string) :
  forall s, split_from sep (String.length u) (u ++ s) = split_from sep 0 s.
Proof.
  induction u as [ | c u IH ]; intros s; [ reflexivity | ].
  cbn [String.length String.append split_from]. apply IH.
Qed.

Lemma prefix_split (a b : string) :
  prefix a b = true -> exists rest, b = a ++ rest.
Proof.
  revert b. induction a as [ | x a IH ]; intros b H.
  - exists b. reflexivity.
  - destruct b as [ | y b ]; [ discriminate H | ].
    cbn [prefix] in H. destruct (ascii_dec x y) as [ -> | ]; [ | discriminate H ].
    destruct (IH b H) as [rest ->]. exists rest. reflexivity.
Qed.

Lemma length_append (a b : string) :
  String.length (a ++ b) = String.length a + String.length b.
Proof.
  induction a as [ | x a IH ]; cbn; [ reflexivity | now rewrite IH ].
Qed.

Lemma join_split_bounded (sep : string) :
  sep <> EmptyString ->
  forall n s, String.length s <= n -> join sep (split sep s) = s.
Proof.
  intros Hsep. unfold split.
  induction n as [ | n IH ]; intros s Hn.
  - destruct s; [ reflexivity | cbn in Hn; lia ].
  - destruct s as [ | c rest ]; [ reflexivity | ].
    cbn [split_from].
    destruct (prefix sep (String c rest)) eqn:Hp.
    + destruct sep as [ | a sep' ]; [ congruence | ].
      destruct (prefix_split _ _ Hp) as [s' Hs].
      cbn [String.append] in Hs. injection Hs as -> ->.
      cbn [String.length Nat.sub]. rewrite Nat.sub_0_r, split_from_skip.
      pose proof (split_from_not_nil (String a sep') s' 0) as Hne.
      assert (Hlen : String.length s' <= n).
      { cbn [String.length] in Hn. rewrite length_append in Hn. lia. }
      specialize (IH s' Hlen).
      destruct (split_from (String a sep') 0 s') as [ | y more ]; [ congruence | ].
      rewrite join_cons_more, IH. reflexivity.
    + assert (Hlen : String.length rest <= n) by (cbn in Hn; lia).
      specialize (IH rest Hlen).
      pose proof (split_from_not_nil sep rest 0) as Hne.
      destruct (split_from sep 0 rest) as [ | piece more ]; [ congruence | ].
      rewrite join_cons_char, IH. reflexivity.
Qed.

Lemma join_split (sep s : string) :
  sep <> EmptyString -> join sep (split sep s) = s.
Proof.
  intros Hsep. apply (join_split_bounded sep Hsep (String.length s)). lia.
Qed.

Lemma newline_not_empty (h : Host) : newline h <> EmptyString.
Proof. unfold newline. destruct (platform h); discriminate. Qed.

(** ** What one turn changes *)

Lemma transition_shape (h : Host) (self : PythonShell) :
  fst (transition h self)
  = touch (0 <? count is_close (snd (transition h self)))%nat None self /\
  forallb (fun e => negb (is_record e)) (snd (transition h self)) = true.
Proof.
  unfold transition, callback_log, touch, count.
  destruct (nonzero_code (exitCode self)); cbn zeta;
    [ destruct (error_listeners self), (_endCallback self) | destruct (_endCallback self) ];
    split; reflexivity.
Qed.

(** Every turn, spelled out on the session: the assignment of its handler,
    a new framing buffer for a data chunk only, and [terminated] set exactly
    by [terminate] and by a transition that fires 'close'. *)
Lemma turn_shape (h : Host) (i : input) (self : PythonShell) :
  exists r : option string,
    fst (turn h i self)
    = touch (is_terminate i || (0 <? count is_close (snd (turn h i self)))%nat)
        r (assigned i self) /\
    (is_data i = false ->
     r = None /\ forallb (fun e => negb (is_record e)) (snd (turn h i self)) = true).
Proof.
  destruct (is_signal i) eqn:Hi.
  - exists None. rewrite (turn_signal h i self Hi).
    assert (Ha : assigned i self = record_signal i self)
      by (destruct i; try discriminate Hi; reflexivity).
    assert (Ht : is_terminate i = false)
      by (destruct i; try discriminate Hi; reflexivity).
    rewrite Ha, Ht. cbn [orb].
    destruct (converged (record_signal i self)).
    + destruct (transition_shape h (record_signal i self)) as [H1 H2].
      split; [ exact H1 | intros _; split; [ reflexivity | exact H2 ] ].
    + split; [ reflexivity | intros _; split; reflexivity ].
  - unfold turn. destruct i; try discriminate Hi; cbn [dispatch assigned record_signal].
    + (* stdout data *)
      unfold on_stdout_data, bind, this, receive.
      destruct (parser self) as [ f | ] eqn:Hp.
      * rewrite recieveInternal_framed. cbn zeta. cbn [codec_of]. rewrite Hp.
        exists (Some (last (framed (newline h) (or_empty (_remaining self)) chunk)
                        EmptyString)).
        split; [ | discriminate ].
        destruct (removelast _) as [ | r0 rs ]; cbn [fst snd app];
          rewrite ?app_nil_r.
        -- reflexivity.
        -- pose proof (no_transition_map_event on_message f (r0 :: rs)) as (Hc & _).
           rewrite Hc. reflexivity.
      * exists None. split; [ reflexivity | intros _; split; reflexivity ].
    + (* stderr data *)
      unfold on_stderr_data, bind, modify, receiveStderr.
      rewrite recieveInternal_framed. cbn zeta. cbn [codec_of].
      exists (Some (last (framed (newline h) (or_empty (_remaining self)) chunk)
                      EmptyString)).
      split; [ | discriminate ].
      destruct (removelast _) as [ | r0 rs ];
        [ | destruct (stderrParser _) as [ f | ] ]; cbn [fst snd app].
      * reflexivity.
      * pose proof (no_transition_map_event on_stderr f (r0 :: rs)) as (Hc & _).
        rewrite Hc. reflexivity.
      * reflexivity.
    + exists None. unfold send, bind, this, perform. cbn.
      split; [ reflexivity | intros _; split; reflexivity ].
    + exists None. split; [ reflexivity | intros _; split; reflexivity ].
    + exists None. split; [ reflexivity | intros _; split; reflexivity ].
    + exists None. split; [ reflexivity | intros _; split; reflexivity ].
Qed.

Lemma join_empty_app (l1 l2 : list string) :
  join EmptyString (l1 ++ l2) = join EmptyString l1 ++ join EmptyString l2.
Proof.
  induction l1 as [ | x l1 IH ]; [ reflexivity | ].
  cbn [app]. rewrite !join_empty_cons, IH, append_assoc. reflexivity.
Qed.

Lemma touch_config (t : bool) (r : option string) (i : input) (self : PythonShell) :
  config (touch t r (assigned i self)) = config self.
Proof. destruct t, r, i; reflexivity. Qed.

Lemma touch_errorData (t : bool) (r : option string) (i : input) (self : PythonShell) :
  errorData (touch t r (assigned i self))
  = errorData self ++ stderr_received [i].
Proof.
  destruct t, r, i; cbn; rewrite ?append_empty_r; reflexivity.
Qed.

Lemma touch_terminated (t : bool) (r : option string) (i : input) (self : PythonShell) :
  terminated (touch t r (assigned i self)) = terminated self || t.
Proof.
  destruct t, r, i; cbn; rewrite ?orb_true_r, ?orb_false_r; reflexivity.
Qed.

Lemma touch_remaining (t : bool) (i : input) (self : PythonShell) :
  _remaining (touch t None (assigned i self)) = _remaining self.
Proof. destruct t, i; reflexivity. Qed.

Lemma run_config (h : Host) (trace : list input) :
  forall self, config (fst (run h trace self)) = config self.
Proof.
  induction trace as [ | i rest IH ]; intros self; [ reflexivity | ].
  rewrite run_cons. cbn [fst]. rewrite IH.
  destruct (turn_shape h i self) as (r & -> & _). apply touch_config.
Qed.

(** X4.  The configuration of a session is fixed at construction: whatever
    the child sends and whatever the owner calls, the script path, the
    command, the mode, the three codec functions, the interpreter path and
    the argument lists of the session stay what the constructor made them. *)
Theorem configuration_is_immutable :
  forall (h : Host) (trace : list input) (self : PythonShell),
    config (fst (run h trace self)) = config self.
Proof.
  intros h trace self. apply run_config.
Qed.

Lemma run_errorData (h : Host) (trace : list input) :
  forall self,
    errorData (fst (run h trace self)) = errorData self ++ stderr_received trace.
Proof.
  induction trace as [ | i rest IH ]; intros self.
  - cbn. now rewrite append_empty_r.
  - rewrite run_cons. cbn [fst]. rewrite IH.
    destruct (turn_shape h i self) as (r & -> & _).
    rewrite touch_errorData, append_assoc.
    change (i :: rest) with ([i] ++ rest)%list.
    unfold stderr_received. rewrite flat_map_app, join_empty_app. reflexivity.
Qed.

(** X5.  The stderr text is accumulated verbatim and in order, whatever else
    happens: after any run of the event loop, [errorData] is what it was
    before followed by every stderr chunk of the run -- also in the turns
    where decoding a stderr record throws, and independently of stdout
    chunks, completion signals and calls of the owner. *)
Theorem errorData_accumulates :
  forall (h : Host) (trace : list input) (self : PythonShell),
    errorData (fst (run h trace self))
    = errorData self ++ stderr_received trace.
Proof.
  intros h trace self. apply run_errorData.
Qed.

Lemma count_positive_app (p : effect -> bool) (l1 l2 : list effect) :
  (0 <? count p (l1 ++ l2))%nat = (0 <? count p l1)%nat || (0 <? count p l2)%nat.
Proof.
  rewrite count_app. destruct (count p l1), (count p l2); reflexivity.
Qed.

(** X6.  The [terminated] flag is true after a run exactly when it was true
    before, or [terminate()] was called during the run, or 'close' was fired
    during the run.  In particular it is never reset, it is set as soon as
    'close' has been fired, and it stays false when the terminal transition
    throws on an unheard error. *)
Theorem terminated_characterisation :
  forall (h : Host) (trace : list input) (self : PythonShell),
    terminated (fst (run h trace self))
    = terminated self
      || existsb is_terminate trace
      || (0 <? count is_close (snd (run h trace self)))%nat.
Proof.
  intros h trace. induction trace as [ | i rest IH ]; intros self.
  - cbn. now rewrite !orb_false_r.
  - rewrite run_cons. cbn [fst snd existsb]. rewrite IH, count_positive_app.
    destruct (turn_shape h i self) as (r & -> & _).
    rewrite touch_terminated.
    destruct (terminated self), (is_terminate i), (existsb is_terminate rest),
      (0 <? count is_close (snd (turn h i self)))%nat,
      (0 <? count is_close
              (snd (run h rest
                      (touch (is_terminate i
                              || (0 <? count is_close (snd (turn h i self)))%nat)
                         r (assigned i self)))))%nat;
      reflexivity.
Qed.

(** X7.  Records are published by data notifications only.  A run without
    data chunks -- stream ends, process exit, [send], [end], [terminate],
    [on('error')] -- publishes no 'message' and no 'stderr' event and leaves
    the framing buffer as it is: a trailing fragment that never got its
    terminator is not delivered when the stream ends or the process exits. *)
Theorem no_flush_without_data :
  forall (h : Host) (trace : list input) (self : PythonShell),
    forallb (fun i => negb (is_data i)) trace = true ->
    _remaining (fst (run h trace self)) = _remaining self /\
    forallb (fun e => negb (is_record e)) (snd (run h trace self)) = true.
Proof.
  intros h trace. induction trace as [ | i rest IH ]; intros self Hd.
  - split; reflexivity.
  - cbn [forallb] in Hd. apply andb_prop in Hd as [Hi Hrest].
    apply negb_true_iff in Hi.
    rewrite run_cons. cbn [fst snd].
    destruct (turn_shape h i self) as (r & Hs & Hq).
    destruct (Hq Hi) as [-> Hlog].
    destruct (IH (fst (turn h i self)) Hrest) as [IHr IHlog].
    split.
    + rewrite IHr, Hs. apply touch_remaining.
    + rewrite forallb_app, Hlog, IHlog. reflexivity.
Qed.

Lemma no_flush_without_data_witness :
  _remaining
    (fst (run (sample_host posix) [Stdout_end; Stderr_end; Exit (Some 0%Z) None]
            (fst (run (sample_host posix) [Stdout_data "last line, no terminator"]
                    (sample_shell posix)))))
  = Val "last line, no terminator" /\
  forallb (fun e => negb (is_record e))
    (snd (run (sample_host posix) [Stdout_end; Stderr_end; Exit (Some 0%Z) None]
            (fst (run (sample_host posix) [Stdout_data "last line, no terminator"]
                    (sample_shell posix)))))
  = true.
Proof.
  exact (no_flush_without_data (sample_host posix)
           [Stdout_end; Stderr_end; Exit (Some 0%Z) None]
           (fst (run (sample_host posix) [Stdout_data "last line, no terminator"]
                   (sample_shell posix)))
           eq_refl).
Defined.

(** X8.  The terminal transition is taken only while a completion signal is
    handled.  A run without stream end and process exit -- any data, [send],
    [end], [on('error')] and in particular [terminate()] -- fires no 'close',
    invokes no completion callback and raises no unheard error, in whatever
    state the session is. *)
Theorem no_transition_without_signal :
  forall (h : Host) (trace : list input) (self : PythonShell),
    forallb (fun i => negb (is_signal i)) trace = true ->
    count is_close (snd (run h trace self)) = 0 /\
    count is_endCallback (snd (run h trace self)) = 0 /\
    count is_unhandled_error (snd (run h trace self)) = 0.
Proof.
  intros h trace self Hq.
  destruct (run_without_signal h trace Hq self) as (H1 & H2 & H3).
  repeat split; assumption.
Qed.

Lemma no_transition_without_signal_witness :
  count is_close
    (snd (run (sample_host posix) [Do_end 7; Do_terminate None; Do_terminate None]
            sample_killed)) = 0.
Proof.
  exact (proj1 (no_transition_without_signal (sample_host posix)
                  [Do_end 7; Do_terminate None; Do_terminate None]
                  sample_killed eq_refl)).
Defined.

(** ** More on the lifecycle *)

Lemma stream_end_refires (h : Host) (i : input) (self : PythonShell) :
  is_stream_end i = true ->
  converged self = true ->
  unheard_failure self = false ->
  count is_close (snd (turn h i self)) = 1 /\
  converged (fst (turn h i self)) = true /\
  unheard_failure (fst (turn h i self)) = false.
Proof.
  intros Hi Hc Hu.
  assert (Hs : is_signal i = true).
  { unfold is_signal. unfold is_stream_end in Hi. now rewrite Hi. }
  assert (Hc' : converged (record_signal i self) = true).
  { unfold converged in *. open_session self.
    destruct i; try discriminate Hi; cbn in *;
      destruct oend, eend; try discriminate Hc; exact Hc. }
  assert (Hu' : unheard_failure (record_signal i self) = false)
    by (destruct i; try discriminate Hi; exact Hu).
  destruct (turn_shape h i self) as (r & Hshape & _).
  rewrite Hshape.
  rewrite (turn_signal h i self Hs), Hc', transition_close_count, Hu'.
  split; [ reflexivity | ].
  assert (Ha : assigned i self = record_signal i self)
    by (destruct i; try discriminate Hi; reflexivity).
  rewrite Ha. split.
  - rewrite <- Hc'. apply converged_facts. destruct r, (is_terminate i); reflexivity.
  - rewrite <- Hu'. destruct r, (is_terminate i); reflexivity.
Qed.

(** X9.  The convergence check has no once-only guard and does not look at
    [terminated]: once all three facts hold (and the failure, if any, is
    heard), every further delivery of a stream-end signal fires 'close'
    again -- n deliveries fire it n times. *)
Theorem close_refires_on_repeated_signal :
  forall (h : Host) (trace : list input) (self : PythonShell),
    converged self = true ->
    unheard_failure self = false ->
    forallb is_stream_end trace = true ->
    count is_close (snd (run h trace self)) = List.length trace.
Proof.
  intros h trace. induction trace as [ | i rest IH ]; intros self Hc Hu Ht.
  - reflexivity.
  - cbn [forallb] in Ht. apply andb_prop in Ht as [Hi Hrest].
    destruct (stream_end_refires h i self Hi Hc Hu) as (H1 & H2 & H3).
    rewrite run_cons. cbn [snd List.length].
    rewrite count_app, H1, (IH _ H2 H3 Hrest). reflexivity.
Qed.

Lemma close_refires_on_repeated_signal_witness :
  terminated
    (fst (run (sample_host posix) [Exit None (Some "SIGTERM")] sample_killed))
  = true /\
  count is_close
    (snd (run (sample_host posix) [Stdout_end; Stderr_end; Stdout_end]
            (fst (run (sample_host posix) [Exit None (Some "SIGTERM")]
                    sample_killed)))) = 3.
Proof.
  split; [ reflexivity | ].
  exact (close_refires_on_repeated_signal (sample_host posix)
           [Stdout_end; Stderr_end; Stdout_end]
           (fst (run (sample_host posix) [Exit None (Some "SIGTERM")] sample_killed))
           eq_refl eq_refl eq_refl).
Defined.

Lemma turn_heard (h : Host) (i : input) (self : PythonShell) :
  heard self = true ->
  heard (fst (turn h i self)) = true /\
  count is_unhandled_error (snd (turn h i self)) = 0.
Proof.
  intros Hh. split.
  - destruct (turn_shape h i self) as (r & -> & _).
    unfold heard in *. open_session self.
    destruct r, (is_terminate i || _), i; cbn in *; try exact Hh;
      rewrite ?orb_true_r; reflexivity.
  - destruct (is_signal i) eqn:Hi.
    + rewrite (turn_signal h i self Hi).
      destruct (converged (record_signal i self)); [ | reflexivity ].
      assert (Hh' : heard (record_signal i self) = true)
        by (destruct i; try discriminate Hi; exact Hh).
      unfold transition, heard, callback_log, count in *.
      destruct (nonzero_code _); cbn zeta;
        [ destruct (error_listeners (record_signal i self)),
                   (_endCallback (record_signal i self)) | 
          destruct (_endCallback (record_signal i self)) ];
        try discriminate Hh'; reflexivity.
    + apply (turn_quiet h i self Hi).
Qed.

Lemma run_heard (h : Host) (trace : list input) :
  forall self,
    heard self = true ->
    count is_unhandled_error (snd (run h trace self)) = 0.
Proof.
  induction trace as [ | i rest IH ]; intros self Hh; [ reflexivity | ].
  destruct (turn_heard h i self Hh) as [Hh' H0].
  rewrite run_cons. cbn [snd]. rewrite count_app, H0, (IH _ Hh'). reflexivity.
Qed.

(** X10.  A session that has an 'error' listener or a completion callback
    before the run never throws the unheard error, and when each completion
    signal is then delivered once, in any order and interleaved with any data
    and any calls, 'close' is fired exactly once. *)
Theorem close_exactly_once_when_heard :
  forall (h : Host) (trace : list input) (self : PythonShell),
    fresh self = true ->
    heard self = true ->
    occurrences is_stdout_end trace = 1 ->
    occurrences is_stderr_end trace = 1 ->
    occurrences is_exit trace = 1 ->
    forallb reported trace = true ->
    count is_close (snd (run h trace self)) = 1 /\
    count is_unhandled_error (snd (run h trace self)) = 0.
Proof.
  intros h trace self Hf Hh H1 H2 H3 H4.
  destruct (fresh_pending self _ Hf H1 H2 H3 H4) as [Hp Hc].
  destruct (run_converges h _ self Hp Hc) as [Hone _].
  pose proof (run_heard h trace self Hh) as H0.
  split; lia.
Qed.

Lemma close_exactly_once_when_heard_witness :
  count is_close
    (snd (run (sample_host posix)
            [Stderr_data "boom"; Exit (Some 1%Z) None; Do_send (VStr "x");
             Stderr_end; Stdout_end]
            (fst (run (sample_host posix) [Do_on_error] (sample_shell posix)))))
  = 1.
Proof.
  exact (proj1 (close_exactly_once_when_heard (sample_host posix)
                  [Stderr_data "boom"; Exit (Some 1%Z) None; Do_send (VStr "x");
                   Stderr_end; Stdout_end]
                  (fst (run (sample_host posix) [Do_on_error] (sample_shell posix)))
                  eq_refl eq_refl eq_refl eq_refl eq_refl eq_refl)).
Defined.

Lemma turn_callback (h : Host) (i : input) (self : PythonShell) (cb : callback) :
  _endCallback self <> Some cb ->
  is_end_with cb i = false ->
  _endCallback (fst (turn h i self)) <> Some cb /\
  count (is_callback_of cb) (snd (turn h i self)) = 0.
Proof.
  intros Hcb Hi. split.
  - destruct (turn_shape h i self) as (r & -> & _).
    destruct r, (is_terminate i || _), i; cbn in *; try exact Hcb.
    all: intros [= ->]; rewrite Nat.eqb_refl in Hi; discriminate.
  - destruct (is_signal i) eqn:Hs.
    + rewrite (turn_signal h i self Hs).
      destruct (converged (record_signal i self)); [ | reflexivity ].
      assert (Hcb' : _endCallback (record_signal i self) <> Some cb)
        by (destruct i; try discriminate Hs; exact Hcb).
      unfold transition, callback_log, count.
      destruct (nonzero_code _); cbn zeta;
        [ destruct (error_listeners (record_signal i self)) | ];
        destruct (_endCallback (record_signal i self)) as [ cb' | ]; cbn;
        try reflexivity;
        destruct (Nat.eqb_spec cb' cb); subst; try reflexivity; congruence.
    + destruct (turn_quiet h i self Hs) as (_ & _ & _ & H0).
      unfold count in *.
      revert H0. generalize (snd (turn h i self)). intros l.
      induction l as [ | e l IHl ]; [ reflexivity | ].
      destruct e; cbn; try exact IHl. discriminate.
Qed.

(** X11.  Only the callback of the latest [end] can be invoked.  A callback
    that is not the registered one and is not registered again during the
    run is never called: after [end(cb2)] has replaced [end(cb1)], the
    terminal transition calls [cb2] and never [cb1]. *)
Theorem replaced_callback_is_never_invoked :
  forall (h : Host) (trace : list input) (self : PythonShell) (cb : callback),
    _endCallback self <> Some cb ->
    existsb (is_end_with cb) trace = false ->
    count (is_callback_of cb) (snd (run h trace self)) = 0.
Proof.
  intros h trace. induction trace as [ | i rest IH ]; intros self cb Hcb Ht.
  - reflexivity.
  - cbn [existsb] in Ht. apply orb_false_iff in Ht as [Hi Hrest].
    destruct (turn_callback h i self cb Hcb Hi) as [Hcb' H0].
    rewrite run_cons. cbn [snd].
    rewrite count_app, H0, (IH _ cb Hcb' Hrest). reflexivity.
Qed.

Lemma replaced_callback_is_never_invoked_witness :
  count (is_callback_of 1)
    (snd (run (sample_host posix)
            [Stdout_end; Stderr_end; Exit (Some 0%Z) None]
            (fst (run (sample_host posix) [Do_end 1; Do_end 2]
                    (sample_shell posix))))) = 0 /\
  count (is_callback_of 2)
    (snd (run (sample_host posix)
            [Stdout_end; Stderr_end; Exit (Some 0%Z) None]
            (fst (run (sample_host posix) [Do_end 1; Do_end 2]
                    (sample_shell posix))))) = 1.
Proof.
  split; [ | reflexivity ].
  apply (replaced_callback_is_never_invoked (sample_host posix)
           [Stdout_end; Stderr_end; Exit (Some 0%Z) None]
           (fst (run (sample_host posix) [Do_end 1; Do_end 2] (sample_shell posix)))
           1).
  - discriminate.
  - reflexivity.
Defined.

(** ** The framer loses nothing *)

Lemma join_cons_nonempty (sep x : string) (rest : list string) :
  rest <> [] -> join sep (x :: rest) = x ++ sep ++ join sep rest.
Proof. destruct rest; [ congruence | reflexivity ]. Qed.

Lemma join_app_pieces (sep b p0 : string) (ps l : list string) :
  join sep (l ++ (b ++ p0) :: ps) = join sep (l ++ [b]) ++ join sep (p0 :: ps).
Proof.
  induction l as [ | x l IH ].
  - cbn [app]. destruct ps as [ | y more ]; [ reflexivity | ].
    rewrite !join_cons_more. cbn [join String.concat]. now rewrite append_assoc.
  - cbn [app].
    rewrite !join_cons_nonempty by (destruct l; discriminate).
    rewrite IH, !append_assoc. reflexivity.
Qed.

Lemma join_app_framed (sep b c : string) (l : list string) :
  sep <> EmptyString ->
  join sep (l ++ framed sep b c) = join sep (l ++ [b]) ++ c.
Proof.
  intros Hsep. unfold framed.
  pose proof (join_split sep c Hsep) as Hc.
  pose proof (split_not_nil sep c) as Hne.
  destruct (split sep c) as [ | p0 ps ]; [ congruence | ].
  rewrite join_app_pieces, Hc. reflexivity.
Qed.

Lemma records_text (emitType : EmitType) (rs : list string) :
  records (map (fun part => event_of emitType (asText part)) rs) = rs.
Proof.
  induction rs as [ | r rs IH ]; [ reflexivity | ].
  cbn [map]. unfold records in *. cbn [flat_map]. rewrite IH.
  destruct emitType; reflexivity.
Qed.

Lemma records_none (log : list effect) :
  forallb (fun e => negb (is_record e)) log = true -> records log = [].
Proof.
  induction log as [ | e log IH ]; [ reflexivity | ].
  cbn [forallb]. intros H. apply andb_prop in H as [He Hl].
  unfold records in *. cbn [flat_map]. rewrite (IH Hl).
  destruct e as [ v | v | | | | | | | ]; try discriminate He; reflexivity.
Qed.

Lemma records_app (l1 l2 : list effect) :
  records (l1 ++ l2) = (records l1 ++ records l2)%list.
Proof. apply flat_map_app. Qed.

Lemma turn_lossless (h : Host) (i : input) (self : PythonShell) (l : list string) :
  parser self = Some asText ->
  stderrParser self = Some asText ->
  join (newline h)
    (l ++ records (snd (turn h i self))
       ++ [or_empty (_remaining (fst (turn h i self)))])
  = join (newline h) (l ++ [or_empty (_remaining self)]) ++ received [i].
Proof.
  intros Hp He.
  assert (Hdata : forall emitType chunk,
             i = data_input emitType chunk ->
             join (newline h)
               (l ++ records (snd (turn h i self))
                  ++ [or_empty (_remaining (fst (turn h i self)))])
             = join (newline h) (l ++ [or_empty (_remaining self)]) ++ chunk).
  { intros emitType chunk ->.
    assert (Hc : codec_of emitType self = Some asText)
      by (destruct emitType; assumption).
    destruct (turn_data h emitType chunk self asText Hc) as (Hlog & Hbuf & _).
    rewrite Hlog, Hbuf, records_text.
    rewrite <- app_removelast_last by apply framed_not_nil.
    apply join_app_framed, newline_not_empty. }
  destruct (is_data i) eqn:Hi.
  - destruct i; try discriminate Hi.
    + rewrite (Hdata on_message chunk eq_refl). reflexivity.
    + rewrite (Hdata on_stderr chunk eq_refl). reflexivity.
  - destruct (turn_shape h i self) as (r & Hs & Hq).
    destruct (Hq Hi) as [-> Hlog].
    rewrite (records_none _ Hlog), Hs, touch_remaining. cbn [app].
    destruct i; try discriminate Hi; cbn; now rewrite append_empty_r.
Qed.

Lemma turn_codecs (h : Host) (i : input) (self : PythonShell) :
  parser (fst (turn h i self)) = parser self /\
  stderrParser (fst (turn h i self)) = stderrParser self /\
  formatter (fst (turn h i self)) = formatter self /\
  mode (fst (turn h i self)) = mode self.
Proof.
  destruct (turn_shape h i self) as (r & -> & _).
  pose proof (touch_config
                (is_terminate i || (0 <? count is_close (snd (turn h i self)))%nat)
                r i self) as Hc.
  unfold config in Hc. injection Hc as _ _ Hm Hf Hp He _ _ _.
  repeat split; assumption.
Qed.

Lemma run_lossless (h : Host) (trace : list input) :
  forall (self : PythonShell) (l : list string),
    parser self = Some asText ->
    stderrParser self = Some asText ->
    join (newline h)
      (l ++ records (snd (run h trace self))
         ++ [or_empty (_remaining (fst (run h trace self)))])
    = join (newline h) (l ++ [or_empty (_remaining self)]) ++ received trace.
Proof.
  induction trace as [ | i rest IH ]; intros self l Hp He.
  - cbn. now rewrite append_empty_r.
  - rewrite run_cons. cbn [fst snd].
    destruct (turn_codecs h i self) as (Hp' & He' & _).
    rewrite Hp in Hp'. rewrite He in He'.
    rewrite records_app, <- app_assoc, app_assoc.
    rewrite (IH (fst (turn h i self)) (l ++ records (snd (turn h i self)))%list)
      by congruence.
    rewrite <- app_assoc, (turn_lossless h i self l Hp He), append_assoc.
    change (i :: rest) with ([i] ++ rest)%list.
    unfold received. rewrite flat_map_app, join_empty_app. reflexivity.
Qed.

(** X12.  In text mode the framer neither loses nor invents a character, on
    every host: after any run, the records published so far, joined by the
    line terminator and followed by the buffered fragment, spell exactly the
    fragment buffered before the run followed by all text received during it.
    The text is that of both streams together, in arrival order: the framing
    buffer is shared between stdout and stderr. *)
Theorem framing_is_lossless :
  forall (h : Host) (trace : list input) (self : PythonShell),
    parser self = Some asText ->
    stderrParser self = Some asText ->
    join (newline h)
      (records (snd (run h trace self))
         ++ [or_empty (_remaining (fst (run h trace self)))])
    = or_empty (_remaining self) ++ received trace.
Proof.
  intros h trace self Hp He.
  exact (run_lossless h trace self [] Hp He).
Qed.

Lemma framing_is_lossless_witness :
  join (EOL win32)
    (records
       (snd (run (sample_host win32)
               [Stdout_data ("a" ++ String CR EmptyString);
                Stderr_data (String LF "b" ++ EOL win32 ++ "c")]
               (sample_shell win32)))
       ++ [or_empty
             (_remaining
                (fst (run (sample_host win32)
                        [Stdout_data ("a" ++ String CR EmptyString);
                         Stderr_data (String LF "b" ++ EOL win32 ++ "c")]
                        (sample_shell win32))))])
  = "a" ++ EOL win32 ++ "b" ++ EOL win32 ++ "c".
Proof.
  exact (framing_is_lossless (sample_host win32)
           [Stdout_data ("a" ++ String CR EmptyString);
            Stderr_data (String LF "b" ++ EOL win32 ++ "c")]
           (sample_shell win32) eq_refl eq_refl).
Defined.

(** ** Binary mode *)

Lemma turn_without_codecs (h : Host) (i : input) (self : PythonShell) :
  parser self = None ->
  stderrParser self = None ->
  forallb (fun e => negb (is_record e)) (snd (turn h i self)) = true.
Proof.
  intros Hp He.
  destruct (is_data i) eqn:Hi.
  - unfold turn. destruct i; try discriminate Hi; cbn [dispatch].
    + unfold on_stdout_data, bind, this. rewrite Hp. reflexivity.
    + unfold on_stderr_data, bind, modify, receiveStderr.
      rewrite recieveInternal_framed. cbn zeta. cbn [codec_of].
      change (stderrParser (set_errorData _ self)) with (stderrParser self).
      rewrite He.
      destruct (removelast _); reflexivity.
  - destruct (turn_shape h i self) as (r & _ & Hq). apply (Hq Hi).
Qed.

Lemma run_without_codecs (h : Host) (trace : list input) :
  forall self,
    parser self = None ->
    stderrParser self = None ->
    forallb (fun e => negb (is_record e)) (snd (run h trace self)) = true.
Proof.
  induction trace as [ | i rest IH ]; intros self Hp He; [ reflexivity | ].
  rewrite run_cons. cbn [snd].
  destruct (turn_codecs h i self) as (Hp' & He' & _).
  rewrite forallb_app, (turn_without_codecs h i self Hp He), IH;
    [ reflexivity | congruence | congruence ].
Qed.

(** X13.  A session constructed with mode binary and no codec option has no
    formatter, no parser and no stderrParser.  Whatever then happens, it
    never publishes a 'message' or a 'stderr' event; and because the stderr
    data listener is installed all the same, every stderr chunk that splits
    into more than one piece makes that listener throw a TypeError (the
    absent stderrParser is called). *)
Theorem binary_mode_publishes_nothing :
  forall (h : Host) (script : string) (trace : list input),
    let self := new_PythonShell h defaultOptions script binary_options in
    (formatter self = None /\ parser self = None /\ stderrParser self = None) /\
    forallb (fun e => negb (is_record e)) (snd (run h trace self)) = true /\
    (forall chunk,
        List.length (split (newline h) chunk) <> 1 ->
        snd (turn h (Stderr_data chunk) (fst (run h trace self)))
        = [Uncaught TypeError_not_a_function]).
Proof.
  intros h script trace self.
  assert (Hcodecs : formatter self = None /\ parser self = None
                    /\ stderrParser self = None) by (repeat split).
  split; [ exact Hcodecs | ].
  destruct Hcodecs as (_ & Hp & He).
  split; [ apply run_without_codecs; assumption | ].
  intros chunk Hlen.
  assert (He' : stderrParser (fst (run h trace self)) = None).
  { pose proof (run_config h trace self) as Hc. unfold config in Hc.
    rewrite <- He. congruence. }
  unfold turn. cbn [dispatch].
  unfold on_stderr_data, bind, modify, receiveStderr.
  rewrite recieveInternal_framed. cbn zeta. cbn [codec_of].
  match goal with
  | |- context [stderrParser (set_errorData ?x ?s)] =>
      change (stderrParser (set_errorData x s)) with (stderrParser s)
  end.
  rewrite He'.
  match goal with
  | |- context [_remaining (set_errorData ?x ?s)] =>
      change (_remaining (set_errorData x s)) with (_remaining s)
  end.
  unfold framed.
  pose proof (split_not_nil (newline h) chunk) as Hne.
  destruct (split (newline h) chunk) as [ | p0 [ | p1 ps ] ];
    [ congruence | cbn in Hlen; congruence | ].
  reflexivity.
Qed.

(** ** Echo *)




Lemma binary_mode_publishes_nothing_witness :
  snd (turn (sample_host posix) (Stderr_data ("warning" ++ EOL posix))
         (fst (run (sample_host posix) [Stdout_data "raw bytes"]
                 (new_PythonShell (sample_host posix) defaultOptions "script.py"
                    binary_options))))
  = [Uncaught TypeError_not_a_function].
Proof.
  apply (proj2 (proj2 (binary_mode_publishes_nothing (sample_host posix) "script.py"
                         [Stdout_data "raw bytes"]))).
  cbn. discriminate.
Defined.

(** ** The message of a traceback error *)

Lemma last_char_app (a b : string) :
  last_char (a ++ b) = match last_char b with
                       | Some c => Some c
                       | None => last_char a
                       end.
Proof.
  induction a as [ | x a IH ]; cbn [String.append last_char].
  - destruct (last_char b); reflexivity.
  - rewrite IH. destruct (last_char b); [ reflexivity | ].
    destruct (last_char a); reflexivity.
Qed.

Lemma last_char_none (s : string) : last_char s = None -> s = EmptyString.
Proof.
  destruct s as [ | c s ]; [ reflexivity | ].
  cbn. destruct (last_char s); discriminate.
Qed.

Lemma trim_end_last (s : string) :
  forall c, last_char (trim_end s) = Some c -> is_white c = false.
Proof.
  induction s as [ | x s IH ]; intros c; cbn [trim_end]; [ discriminate | ].
  destruct (trim_end s) as [ | y kept ] eqn:Hk.
  - destruct (is_white x) eqn:Hx; cbn; [ discriminate | ].
    intros [= <-]. exact Hx.
  - intros Hc. apply IH.
    change (last_char (String x (String y kept))) with
      (match last_char (String y kept) with Some d => Some d | None => Some x end)
      in Hc.
    destruct (last_char (String y kept)) eqn:Hl; [ exact Hc | ].
    apply last_char_none in Hl. discriminate Hl.
Qed.

Lemma trim_end_keeps_head (c : ascii) (s : string) :
  is_white c = false -> trim_end (String c s) <> EmptyString.
Proof.
  intros Hc. cbn [trim_end].
  destruct (trim_end s); [ rewrite Hc | ]; discriminate.
Qed.

Lemma join_snoc (sep x : string) (l : list string) :
  l <> [] -> join sep (l ++ [x]) = join sep l ++ sep ++ x.
Proof.
  induction l as [ | y l IH ]; [ congruence | intros _ ].
  destruct l as [ | z l ]; [ reflexivity | ].
  cbn [app] in *. rewrite !join_cons_more, IH by discriminate.
  rewrite !append_assoc. reflexivity.
Qed.

Lemma last_piece_keeps_end (h : Host) (t : string) (c : ascii) :
  last_char t = Some c ->
  is_white c = false ->
  last_char (last (split (newline h) t) EmptyString) = Some c.
Proof.
  intros Ht Hc.
  pose proof (join_split (newline h) t (newline_not_empty h)) as Hj.
  pose proof (split_not_nil (newline h) t) as Hne.
  rewrite (app_removelast_last EmptyString Hne) in Hj.
  set (m := last (split (newline h) t) EmptyString) in *.
  destruct (removelast (split (newline h) t)) as [ | y init ] eqn:Hi.
  - cbn in Hj. rewrite Hj. exact Ht.
  - rewrite join_snoc in Hj by discriminate.
    rewrite <- Hj, !last_char_app in Ht.
    destruct (last_char m) as [ d | ]; [ exact Ht | ].
    exfalso.
    assert (Hnl : last_char (newline h) = Some LF)
      by (unfold newline; destruct (platform h); reflexivity).
    rewrite Hnl in Ht. injection Ht as <-. discriminate Hc.
Qed.

(** X15.  For stderr text that begins with the marker Traceback, the message
    of the parsed error is never empty and never ends with white space: it
    ends with the last character of the text that is not white space, so a
    trailing line terminator or blank lines after the summary never reach
    the message. *)
Theorem traceback_message_is_not_blank :
  forall (h : Host) (data : string),
    prefix "Traceback" data = true ->
    exists c,
      last_char (PythonShellError.message (parseError h data)) = Some c /\
      is_white c = false /\
      last_char (trim data) = Some c.
Proof.
  intros h data Hp.
  destruct (prefix_split _ _ Hp) as [rest ->].
  assert (Ht : trim ("Traceback" ++ rest) = trim_end ("Traceback" ++ rest))
    by reflexivity.
  assert (Hne : trim ("Traceback" ++ rest) <> EmptyString).
  { rewrite Ht. apply trim_end_keeps_head. reflexivity. }
  destruct (last_char (trim ("Traceback" ++ rest))) as [ c | ] eqn:Hl;
    [ | apply last_char_none in Hl; congruence ].
  assert (Hc : is_white c = false)
    by (apply (trim_end_last ("Traceback" ++ rest) c); rewrite <- Ht; exact Hl).
  exists c. split; [ | split; [ exact Hc | reflexivity ] ].
  unfold parseError. rewrite Hp. cbn [PythonShellError.message new_PythonShellError].
  apply last_piece_keeps_end; assumption.
Qed.

Lemma traceback_message_is_not_blank_witness :
  exists c,
    last_char (PythonShellError.message
                 (parseError (sample_host win32)
                    ("Traceback: oops  " ++ EOL win32 ++ EOL win32)))
    = Some c /\
    is_white c = false /\
    last_char (trim ("Traceback: oops  " ++ EOL win32 ++ EOL win32)) = Some c.
Proof.
  exact (traceback_message_is_not_blank (sample_host win32)
           ("Traceback: oops  " ++ EOL win32 ++ EOL win32) eq_refl).
Defined.

(** ** [extend] *)

Lemma get_put (key k : string) (v : jsval) (obj : object) :
  get key (put k v obj) = if String.eqb key k then Some v else get key obj.
Proof.
  induction obj as [ | [k0 v0] obj IH ]; cbn [put get].
  - reflexivity.
  - destruct (String.eqb_spec k k0) as [ -> | Hk ]; cbn [get].
    + destruct (String.eqb key k0); reflexivity.
    + rewrite IH.
      destruct (String.eqb_spec key k0) as [ -> | ]; [ | reflexivity ].
      destruct (String.eqb_spec k0 k); [ congruence | reflexivity ].
Qed.

Lemma get_copy_keys (key : string) (source : object) (keys : list string) :
  forall obj,
    get key
      (fold_left (fun obj k => match get k source with
                               | Some v => put k v obj
                               | None => obj
                               end) keys obj)
    = if existsb (String.eqb key) keys
      then match get key source with
           | Some v => Some v
           | None => get key obj
           end
      else get key obj.
Proof.
  induction keys as [ | k keys IH ]; intros obj; [ reflexivity | ].
  cbn [fold_left existsb]. rewrite IH.
  destruct (String.eqb_spec key k) as [ <- | Hk ]; cbn [orb].
  - destruct (get key source) as [ v | ] eqn:Hs;
      destruct (existsb (String.eqb key) keys);
      rewrite ?get_put, ?String.eqb_refl; reflexivity.
  - destruct (get k source) as [ v | ]; [ | reflexivity ].
    rewrite get_put.
    destruct (String.eqb_spec key k); [ congruence | reflexivity ].
Qed.

Lemma get_keys (key : string) (source : object) :
  existsb (String.eqb key) (map fst source) = false -> get key source = None.
Proof.
  induction source as [ | [k v] source IH ]; [ reflexivity | ].
  cbn [map fst existsb get]. destruct (String.eqb key k); [ discriminate | exact IH ].
Qed.

Lemma get_copy_properties (key : string) (source obj : object) :
  get key (copy_properties source obj)
  = match get key source with
    | Some v => Some v
    | None => get key obj
    end.
Proof.
  unfold copy_properties. rewrite get_copy_keys.
  destruct (existsb (String.eqb key) (map fst source)) eqn:He; [ reflexivity | ].
  now rewrite (get_keys key source He).
Qed.

Lemma extend_app (obj : object) (a b : list (option object)) :
  extend obj (a ++ b) = extend (extend obj a) b.
Proof. apply fold_left_app. Qed.

Lemma get_extend_undefined (key : string) (args : list (option object)) :
  forall obj, undefined_in key args -> get key (extend obj args) = get key obj.
Proof.
  induction args as [ | source args IH ]; intros obj Hu; [ reflexivity | ].
  cbn [extend fold_left]. fold (extend (match source with
                                        | Some src => copy_properties src obj
                                        | None => obj
                                        end) args).
  rewrite IH.
  - destruct source as [ src | ]; [ | reflexivity ].
    rewrite get_copy_properties, (Hu src); [ reflexivity | left; reflexivity ].
  - intros src Hin. apply Hu. right. exact Hin.
Qed.

(** X16.  [extend] copies the properties of its sources onto the target from
    left to right, so for every key the last source that has it wins -- also
    when the value it holds is undefined -- and a key that no source has
    keeps the value of the target.  Sources that are null or undefined are
    skipped.  This is how the options of a call override
    [PythonShell.defaultOptions]. *)
Theorem extend_last_source_wins :
  forall (obj : object) (key : string),
    (forall args,
        undefined_in key args ->
        get key (extend obj args) = get key obj) /\
    (forall before src after v,
        get key src = Some v ->
        undefined_in key after ->
        get key (extend obj (before ++ Some src :: after)) = Some v).
Proof.
  intros obj key. split.
  - intros args Hu. apply get_extend_undefined, Hu.
  - intros before src after v Hv Hu.
    rewrite extend_app.
    change (Some src :: after) with ([Some src] ++ after)%list.
    rewrite extend_app, (get_extend_undefined key after _ Hu).
    cbn [extend fold_left]. rewrite get_copy_properties, Hv. reflexivity.
Qed.

Lemma extend_last_source_wins_witness :
  get "mode"
    (extend []
       ([Some [("mode", VStr "json"); ("encoding", VStr "utf8")]]
        ++ Some [("mode", VUndefined)] :: [None; Some [("args", VNull)]]))
  = Some VUndefined.
Proof.
  apply (proj2 (extend_last_source_wins [] "mode")
           [Some [("mode", VStr "json"); ("encoding", VStr "utf8")]]
           [("mode", VUndefined)] [None; Some [("args", VNull)]] VUndefined).
  - reflexivity.
  - intros src [ H | [ H | [] ] ]; [ discriminate H | ].
    injection H as <-. reflexivity.
Defined.

(** ** [PythonShell.run] *)













(** ** Published records on a POSIX host *)

Lemma Forall_removelast {A : Type} (P : A -> Prop) (l : list A) :
  Forall P l -> Forall P (removelast l).
Proof.
  induction 1 as [ | x l Hx Hl IH ]; [ constructor | ].
  destruct l as [ | y l ]; [ constructor | ].
  constructor; assumption.
Qed.

Lemma turn_single_lines (h : Host) (i : input) (self : PythonShell) :
  platform h = posix ->
  parser self = Some asText ->
  stderrParser self = Some asText ->
  lf_free (or_empty (_remaining self)) = true ->
  Forall (fun r => lf_free r = true) (records (snd (turn h i self))) /\
  lf_free (or_empty (_remaining (fst (turn h i self)))) = true.
Proof.
  intros Hposix Hp He Hb.
  assert (Hdata : forall emitType chunk,
             i = data_input emitType chunk ->
             Forall (fun r => lf_free r = true) (records (snd (turn h i self))) /\
             lf_free (or_empty (_remaining (fst (turn h i self)))) = true).
  { intros emitType chunk ->.
    assert (Hc : codec_of emitType self = Some asText)
      by (destruct emitType; assumption).
    destruct (turn_data h emitType chunk self asText Hc) as (Hlog & Hbuf & _).
    rewrite Hlog, Hbuf, records_text. unfold newline. rewrite Hposix.
    pose proof (framed_lf_free chunk _ Hb) as Hall.
    split.
    - apply Forall_removelast, Hall.
    - apply (Forall_last (fun piece => lf_free piece = true));
        [ exact Hall | apply framed_not_nil ]. }
  destruct (is_data i) eqn:Hi.
  - destruct i; try discriminate Hi.
    + apply (Hdata on_message chunk eq_refl).
    + apply (Hdata on_stderr chunk eq_refl).
  - destruct (turn_shape h i self) as (r & Hs & Hq).
    destruct (Hq Hi) as [-> Hlog].
    rewrite (records_none _ Hlog), Hs, touch_remaining.
    split; [ constructor | exact Hb ].
Qed.

(** X18.  On a POSIX host and in text mode every published record is a
    single line: when the framing buffer holds no line feed before a run, no
    'message' or 'stderr' record published during the run contains a line
    feed, however the text was cut into chunks. *)
Theorem records_are_single_lines_posix :
  forall (h : Host) (trace : list input) (self : PythonShell),
    platform h = posix ->
    parser self = Some asText ->
    stderrParser self = Some asText ->
    lf_free (or_empty (_remaining self)) = true ->
    Forall (fun r => lf_free r = true) (records (snd (run h trace self))).
Proof.
  intros h trace. induction trace as [ | i rest IH ]; intros self Hposix Hp He Hb.
  - constructor.
  - rewrite run_cons. cbn [snd]. rewrite records_app.
    destruct (turn_single_lines h i self Hposix Hp He Hb) as [Hr Hb'].
    destruct (turn_codecs h i self) as (Hp' & He' & _).
    apply Forall_app. split; [ exact Hr | ].
    apply IH; congruence.
Qed.

Lemma records_are_single_lines_posix_witness :
  Forall (fun r => lf_free r = true)
    (records
       (snd (run (sample_host posix)
               [Stdout_data ("a" ++ EOL posix ++ EOL posix ++ "b");
                Stderr_data ("c" ++ EOL posix)]
               (sample_shell posix)))).
Proof.
  exact (records_are_single_lines_posix (sample_host posix)
           [Stdout_data ("a" ++ EOL posix ++ EOL posix ++ "b");
            Stderr_data ("c" ++ EOL posix)]
           (sample_shell posix) eq_refl eq_refl eq_refl eq_refl).
Defined.


